(** * Verification of the delimited-record parser and the bounded recursive
      file search of the Raycast Windows extension template.

    The development embeds two example commands of the repository:

    - [ProcessManager]: the Windows process manager example
      ([parseWindowsCSV], [getRunningProcesses]);
    - [FileSearch]: the advanced file search manager example
      ([searchWithEverything], [searchFileSystem], [searchDirectory],
      [searchFiles]).

    JavaScript strings are sequences of UTF-16 code units; the model keeps the
    8-bit code units (Rocq's [ascii]), which cover every character the
    functions below inspect: the quote, the comma, the dot, tab, CR, LF and
    the white space that [trim] removes. *)

From Stdlib Require Import Bool Arith ZArith Lia List Ascii String.
From Stdlib Require Import Numbers.DecimalString.
Import ListNotations.
Open Scope string_scope.
Open Scope list_scope.

(** ** JavaScript string primitives *)

Module Js.

Definition LF : ascii := "010"%char.
Definition CR : ascii := "013"%char.
Definition TAB : ascii := "009"%char.
Definition DQUOTE : ascii := "034"%char.
Definition COMMA : ascii := ","%char.
Definition DOT : ascii := "."%char.
Definition BACKSLASH : ascii := "092"%char.

(** [charAt c] is the one-character string made of [c]. *)
Definition charAt (c : ascii) : string := String c EmptyString.

(** White space and line terminators removed by [String.prototype.trim],
    among the 8-bit code units: TAB, LF, VT, FF, CR, SPACE and NBSP. *)
Definition isWhitespace (c : ascii) : bool :=
  let n := N_of_ascii c in
  ((9 <=? n) && (n <=? 13) || (n =? 32) || (n =? 160))%N.

Fixpoint trimStart (s : string) : string :=
  match s with
  | EmptyString => EmptyString
  | String c r => if isWhitespace c then trimStart r else s
  end.

Fixpoint trimEnd (s : string) : string :=
  match s with
  | EmptyString => EmptyString
  | String c r =>
      match trimEnd r with
      | EmptyString => if isWhitespace c then EmptyString else charAt c
      | String _ _ as r' => String c r'
      end
  end.

(** [s.trim()] *)
Definition trim (s : string) : string := trimEnd (trimStart s).

(** Truthiness of a string: every string but the empty one. *)
Definition truthy (s : string) : bool :=
  match s with
  | EmptyString => false
  | String _ _ => true
  end.

(** [s.startsWith(p)] *)
Definition startsWith (s p : string) : bool := String.prefix p s.

(** [s.includes(p)] *)
Fixpoint includes (s p : string) : bool :=
  String.prefix p s
  || match s with
     | EmptyString => false
     | String _ r => includes r p
     end.

(** Lower-casing of one 8-bit code unit: A-Z, and the Latin-1 capitals
    U+00C0-U+00DE apart from the multiplication sign U+00D7. *)
Definition lowerChar (c : ascii) : ascii :=
  let n := N_of_ascii c in
  if ((65 <=? n) && (n <=? 90)
      || (192 <=? n) && (n <=? 222) && negb (n =? 215))%N
  then ascii_of_N (n + 32)
  else c.

(** [s.toLowerCase()] *)
Fixpoint toLowerCase (s : string) : string :=
  match s with
  | EmptyString => EmptyString
  | String c r => String (lowerChar c) (toLowerCase r)
  end.

(** [s.split(/\r?\n/)]: a line ends at LF, or at CR immediately followed by
    LF; a CR that is not followed by LF stays in its line. *)
Fixpoint splitLines (s : string) : list string :=
  match s with
  | EmptyString => [EmptyString]
  | String c r =>
      if Ascii.eqb c LF then EmptyString :: splitLines r
      else
        let keep :=
          match splitLines r with
          | [] => [charAt c]
          | l :: ls => String c l :: ls
          end in
        if Ascii.eqb c CR then
          match r with
          | String c2 r2 =>
              if Ascii.eqb c2 LF then EmptyString :: splitLines r2 else keep
          | EmptyString => keep
          end
        else keep
  end.

(** [s.split(sep)] for a one-character separator. *)
Fixpoint splitChar (sep : ascii) (s : string) : list string :=
  match s with
  | EmptyString => [EmptyString]
  | String c r =>
      if Ascii.eqb c sep then EmptyString :: splitChar sep r
      else
        match splitChar sep r with
        | [] => [charAt c]
        | l :: ls => String c l :: ls
        end
  end.

(** [xs.slice(0, e)] for an integer [e]: a negative [e] counts from the end. *)
Definition slice0 {A : Type} (xs : list A) (e : Z) : list A :=
  if (e <? 0)%Z
  then firstn (Z.to_nat (Z.max (Z.of_nat (List.length xs) + e) 0)) xs
  else firstn (Z.to_nat e) xs.

(** Template-literal rendering of an integer. *)
Definition showInt (n : Z) : string := NilZero.string_of_int (Z.to_int n).

(** Outcome of an asynchronous call: a value, or a thrown [Error] whose
    [message] is carried. *)
Inductive result (A : Type) : Type :=
| Ok (a : A)
| Throw (message : string).
Arguments Ok {A} a.
Arguments Throw {A} message.

(** [`${error}`] for an [Error] object. *)
Definition showError (message : string) : string :=
  ("Error: " ++ message)%string.

End Js.

(** ** The Windows process manager example *)

Module ProcessManager.
Import Js.

Inductive Status : Type := Running | Suspended | Unknown.

Record WindowsProcess : Type := {
  name : string;
  pid : string;
  sessionName : string;
  sessionNumber : string;
  memUsage : string;
  status : option Status
}.

(** What [execAsync] does with a command line: the child exits and its two
    streams are returned, or the promise rejects with an error that may carry
    a [code] and whose rendering by a template literal is [text]. *)
Inductive ExecOutcome : Type :=
| Exited (stdout stderr : string)
| Rejected (code : option string) (text : string).

Definition codeIs (code : option string) (c : string) : bool :=
  match code with
  | Some c' => String.eqb c' c
  | None => false
  end.

Definition runWindowsCommand (execAsync : string -> ExecOutcome)
    (command : string) : result string :=
  let fullCommand := ("chcp 65001 > nul && " ++ command)%string in
  match execAsync fullCommand with
  | Exited stdout _ => Ok (trim stdout)
  | Rejected code text =>
      if codeIs code "ENOENT" then
        Throw "Command not found. Please ensure Windows is properly configured."
      else if codeIs code "EACCES" then
        Throw "Access denied. Administrator privileges may be required."
      else Throw ("Command failed: " ++ text)%string
  end.

(** State of the character loop of [parseWindowsCSV] over one line. *)
Record Scan : Type := {
  parts : list string;
  current : string;
  inQuotes : bool
}.

Definition scanStart : Scan :=
  {| parts := []; current := EmptyString; inQuotes := false |}.

(** One iteration of the loop, on the character [char]. *)
Definition scanChar (st : Scan) (char : ascii) : Scan :=
  if Ascii.eqb char DQUOTE then
    {| parts := parts st; current := current st;
       inQuotes := negb (inQuotes st) |}
  else if Ascii.eqb char COMMA && negb (inQuotes st) then
    {| parts := parts st ++ [trim (current st)]; current := EmptyString;
       inQuotes := inQuotes st |}
  else
    {| parts := parts st; current := (current st ++ charAt char)%string;
       inQuotes := inQuotes st |}.

Fixpoint scanFrom (st : Scan) (line : string) : Scan :=
  match line with
  | EmptyString => st
  | String char rest => scanFrom (scanChar st char) rest
  end.

(** The callback given to [map]: the fields of one line. *)
Definition parseLine (line : string) : list string :=
  let st := scanFrom scanStart line in
  parts st ++ [trim (current st)].

(** The callback given to [filter]: [parts.length > 0 && parts[0]]. *)
Definition keepRow (row : list string) : bool :=
  Nat.ltb 0 (List.length row)
  && match nth_error row 0 with
     | Some field => truthy field
     | None => false
     end.

Definition parseWindowsCSV (csvOutput : string) : list (list string) :=
  filter keepRow (map parseLine (splitLines (trim csvOutput))).

(** [row[i] || default]; the source always gives the empty string as the
    default. *)
Definition fieldOr (row : list string) (i : nat) (default : string) : string :=
  match nth_error row i with
  | Some field => if truthy field then field else default
  | None => default
  end.

Definition toProcess (row : list string) : WindowsProcess :=
  {| name := fieldOr row 0 EmptyString;
     pid := fieldOr row 1 EmptyString;
     sessionName := fieldOr row 2 EmptyString;
     sessionNumber := fieldOr row 3 EmptyString;
     memUsage := fieldOr row 4 EmptyString;
     status := Some Running |}.

Definition hasNameAndPid (process : WindowsProcess) : bool :=
  truthy (name process) && truthy (pid process).

Definition getRunningProcesses (execAsync : string -> ExecOutcome)
    : result (list WindowsProcess) :=
  match runWindowsCommand execAsync "tasklist /fo csv /nh" with
  | Ok output =>
      let rows := parseWindowsCSV output in
      Ok (filter hasNameAndPid (map toProcess rows))
  | Throw message =>
      Throw ("Failed to retrieve process list: " ++ showError message)%string
  end.

Definition killProcess (execAsync : string -> ExecOutcome) (pid : string)
    : result unit :=
  match runWindowsCommand execAsync
          ("taskkill /PID " ++ pid ++ " /F")%string with
  | Ok _ => Ok tt
  | Throw message =>
      Throw ("Failed to kill process " ++ pid ++ ": "
               ++ showError message)%string
  end.

Definition killProcessByName (execAsync : string -> ExecOutcome)
    (name : string) : result unit :=
  match runWindowsCommand execAsync
          ("taskkill /IM " ++ charAt DQUOTE ++ name ++ charAt DQUOTE
             ++ " /F")%string with
  | Ok _ => Ok tt
  | Throw message =>
      Throw ("Failed to kill process " ++ name ++ ": "
               ++ showError message)%string
  end.

(** [memUsage.replace(/[,\s]/g, ...)] with the empty replacement: commas
    and white space are removed. *)
Fixpoint removeCommasAndSpaces (s : string) : string :=
  match s with
  | EmptyString => EmptyString
  | String c r =>
      if Ascii.eqb c COMMA || isWhitespace c then removeCommasAndSpaces r
      else String c (removeCommasAndSpaces r)
  end.

(** [Math.round(a / d)] for an integer [a] and a power of two [d]: the
    quotient is exact in binary floating point as long as [a] is below
    2^53 in absolute value, and [Math.round] rounds halves upwards. *)
Definition roundDiv (a d : Z) : Z := ((2 * a + d) / (2 * d))%Z.

(** [formatMemoryUsage]; [parseInt] answers [None] for [NaN], with which
    every comparison is false and which a template literal renders as
    NaN. The integer arithmetic is that of the source for parsed values
    below 2^43 in absolute value. *)
Definition formatMemoryUsage (parseInt : string -> option Z)
    (memUsage : string) : string :=
  let cleanUsage := removeCommasAndSpaces memUsage in
  match parseInt cleanUsage with
  | None => "NaN GB"
  | Some n =>
      let bytes := (n * 1024)%Z in
      if (bytes <? 1024 * 1024)%Z then
        (showInt (roundDiv bytes 1024) ++ " KB")%string
      else if (bytes <? 1024 * 1024 * 1024)%Z then
        (showInt (roundDiv bytes (1024 * 1024)) ++ " MB")%string
      else
        (showInt (roundDiv bytes (1024 * 1024 * 1024)) ++ " GB")%string
  end.

(** The list kept by [loadProcesses]: the processes of the session named
    Services are left out unless the preference asks for them. *)
Definition shownProcesses (showSystemProcesses : bool)
    (processData : list WindowsProcess) : list WindowsProcess :=
  if showSystemProcesses then processData
  else filter (fun p => negb (String.eqb (sessionName p) "Services"))
         processData.

(** [loadProcesses]: the value given to [setProcesses], and the message of
    the failure toast if one is shown. *)
Definition loadProcesses (execAsync : string -> ExecOutcome)
    (showSystemProcesses : bool) : list WindowsProcess * option string :=
  match getRunningProcesses execAsync with
  | Ok processData => (shownProcesses showSystemProcesses processData, None)
  | Throw message => ([], Some message)
  end.

(** [filteredProcesses] of the component. *)
Definition filteredProcesses (searchText : string)
    (processes : list WindowsProcess) : list WindowsProcess :=
  filter
    (fun process =>
       if negb (truthy searchText) then true
       else
         let searchLower := toLowerCase searchText in
         includes (toLowerCase (name process)) searchLower
         || includes (pid process) searchText)
    processes.

End ProcessManager.

(** ** Specification-level notions for the record parser *)

Module ParserSpec.
Import Js ProcessManager.

(** Per line: no comma lies inside a quoted span, a span being opened and
    closed by the quotes of the line itself. [quoted] tells whether the
    scan starts inside a span. *)
Fixpoint commasUnquoted (quoted : bool) (line : string) : bool :=
  match line with
  | EmptyString => true
  | String c rest =>
      if Ascii.eqb c DQUOTE then commasUnquoted (negb quoted) rest
      else if Ascii.eqb c COMMA then negb quoted && commasUnquoted quoted rest
      else commasUnquoted quoted rest
  end.

(** Number of occurrences of a character in a string. *)
Fixpoint occurrences (c : ascii) (s : string) : nat :=
  match s with
  | EmptyString => 0
  | String c' rest =>
      (if Ascii.eqb c' c then 1 else 0) + occurrences c rest
  end.

(** The quotes of the line pair up. *)
Definition balanced (line : string) : bool :=
  Nat.even (occurrences DQUOTE line).

(** The row has a non-empty field at index [i]. *)
Definition hasField (row : list string) (i : nat) : bool :=
  match nth_error row i with
  | Some field => truthy field
  | None => false
  end.

(** The row carries both a name (field 0) and a pid (field 1). *)
Definition wellFormed (row : list string) : bool :=
  hasField row 0 && hasField row 1.

(** The command line that [getRunningProcesses] hands to the shell. *)
Definition tasklistCommand : string :=
  "chcp 65001 > nul && tasklist /fo csv /nh".

(** [xs.join(sep)] *)
Fixpoint joinWith (sep : string) (xs : list string) : string :=
  match xs with
  | [] => EmptyString
  | x :: rest =>
      match rest with
      | [] => x
      | _ :: _ => (x ++ sep ++ joinWith sep rest)%string
      end
  end.

(** A field between quotes, as the listing command prints it. *)
Definition quoteField (field : string) : string :=
  (charAt DQUOTE ++ field ++ charAt DQUOTE)%string.

(** A row of quoted fields separated by commas. *)
Definition encodeRow (row : list string) : string :=
  joinWith (charAt COMMA) (map quoteField row).

(** Rows of quoted fields, one per line, with [eol] between the lines. *)
Definition encodeRows (eol : string) (rows : list (list string)) : string :=
  joinWith eol (map encodeRow rows).

Definition CRLF : string := String CR (charAt LF).

(** A field that the parser gives back as it is: no quote and no line feed
    in it, no white space around it. *)
Definition plainField (field : string) : bool :=
  String.eqb (trim field) field
  && Nat.eqb (occurrences DQUOTE field) 0
  && Nat.eqb (occurrences LF field) 0.

(** A row that the parser keeps: plain fields, the first of them not
    empty. *)
Definition plainRow (row : list string) : bool :=
  forallb plainField row && hasField row 0.

(** The five columns of the listing for a process. *)
Definition rowOf (p : WindowsProcess) : list string :=
  [name p; pid p; sessionName p; sessionNumber p; memUsage p].

(** A process that the listing can carry: plain columns, a name and a pid
    that are not empty, and the status that [getRunningProcesses] gives. *)
Definition listedProcess (p : WindowsProcess) : bool :=
  plainRow (rowOf p) && truthy (pid p)
  && match status p with
     | Some Running => true
     | _ => false
     end.

(** What the user is told when the command is rejected with [code] and an
    error rendered as [text]. *)
Definition rejectionMessage (code : option string) (text : string) : string :=
  if codeIs code "ENOENT" then
    "Command not found. Please ensure Windows is properly configured."
  else if codeIs code "EACCES" then
    "Access denied. Administrator privileges may be required."
  else ("Command failed: " ++ text)%string.

Fixpoint endsWithCR (s : string) : bool :=
  match s with
  | EmptyString => false
  | String c r =>
      match r with
      | EmptyString => Ascii.eqb c CR
      | String _ _ => endsWithCR r
      end
  end.

Definition firstChar (s : string) : option ascii :=
  match s with
  | EmptyString => None
  | String c _ => Some c
  end.

Fixpoint lastChar (s : string) : option ascii :=
  match s with
  | EmptyString => None
  | String c r =>
      match r with
      | EmptyString => Some c
      | String _ _ => lastChar r
      end
  end.

End ParserSpec.

(** ** The advanced file search manager example *)

Module FileSearch.
Import Js.

Inductive FileType : Type := file | directory.

(** A [Date] object: the one the file system reports for an entry, or the
    one built by [new Date(text)] from a column of the search tool. *)
Inductive Date : Type :=
| DateAt (millis : Z)
| DateOf (text : string).

Record FileItem : Type := {
  path : string;
  name : string;
  size : Z;
  modified : Date;
  type : FileType;
  extension : option string;
  isHidden : bool
}.

Record SearchResult : Type := {
  files : list FileItem;
  totalCount : nat;
  searchTime : Z
}.

Record Preferences : Type := {
  searchPaths : string;
  maxResults : string;
  includeHidden : bool;
  useEverything : bool;
  excludePatterns : string
}.

(** An entry of [fs.readdir(dir, { withFileTypes: true })]. *)
Record Dirent : Type := {
  ent_name : string;
  ent_isDirectory : bool;
  ent_isFile : bool
}.

(** The part of [fs.Stats] that the search reads. *)
Record Stats : Type := {
  st_size : Z;
  st_mtime : Date;
  st_isDirectory : bool
}.

(** The host the command runs on: Node's [path] module and [parseInt], the
    file system and the shell. [readdir] and [stat] answer [None] when the
    promise rejects (permission denied, entry gone); [execAsync] answers the
    standard output of the command, or the rendering of the error it rejects
    with; [parseInt] answers [None] for [NaN]. *)
Record Host : Type := {
  join : string -> string -> string;
  basename : string -> string;
  extname : string -> string;
  parseInt : string -> option Z;
  readdir : string -> option (list Dirent);
  stat : string -> option Stats;
  execAsync : string -> result string
}.

(** [n || d] for a number [n]: [NaN] and [0] are falsy. *)
Definition numberOr (n : option Z) (d : Z) : Z :=
  match n with
  | Some v => if (v =? 0)%Z then d else v
  | None => d
  end.

Definition runWindowsCommand (h : Host) (command : string) : result string :=
  let fullCommand := ("chcp 65001 > nul && " ++ command)%string in
  match execAsync h fullCommand with
  | Ok stdout => Ok (trim stdout)
  | Throw error => Throw ("Command failed: " ++ error)%string
  end.

Definition isDirectory (h : Host) (path : string) : bool :=
  match stat h path with
  | Some stats => st_isDirectory stats
  | None => false
  end.

(** The body of the loop of [searchWithEverything] on one line of output:
    the record pushed, if any. *)
Definition everythingItem (h : Host) (line : string) : list FileItem :=
  let parts := splitChar TAB line in
  if Nat.leb 3 (List.length parts) then
    let path := nth 0 parts EmptyString in
    let size := numberOr (parseInt h (nth 1 parts EmptyString)) 0 in
    let modified := DateOf (nth 2 parts EmptyString) in
    [ {| path := path;
         name := basename h path;
         size := size;
         modified := modified;
         type := if isDirectory h path then directory else file;
         extension := Some (toLowerCase (extname h path));
         isHidden := startsWith (basename h path) (charAt DOT) |} ]
  else [].

Definition searchWithEverything (h : Host) (query : string) (maxResults : Z)
    : result (list FileItem) :=
  let command :=
    ("es.exe -n " ++ showInt maxResults ++ " -size -date-modified "
       ++ charAt DQUOTE ++ query ++ charAt DQUOTE)%string in
  match runWindowsCommand h command with
  | Ok output =>
      let lines := filter (fun line => truthy (trim line)) (splitLines output) in
      Ok (flat_map (everythingItem h) lines)
  | Throw _ => Ok []
  end.

(** [results.length >= maxResults] *)
Definition full (results : list FileItem) (maxResults : Z) : bool :=
  (maxResults <=? Z.of_nat (List.length results))%Z.

(** The record that [searchDirectory] pushes for a matching entry. *)
Definition fileItem (h : Host) (fullPath : string) (entry : Dirent)
    (stats : Stats) : FileItem :=
  {| path := fullPath;
     name := ent_name entry;
     size := st_size stats;
     modified := st_mtime stats;
     type := if ent_isDirectory entry then directory else file;
     extension :=
       if ent_isFile entry
       then Some (toLowerCase (extname h (ent_name entry)))
       else None;
     isHidden := startsWith (ent_name entry) (charAt DOT) |}.

(** The loop over the entries of [dirPath]; [recur fullPath results] stands
    for the recursive call on a sub-directory. *)
Fixpoint forEntries (h : Host)
    (recur : string -> list FileItem -> list FileItem)
    (dirPath query : string) (maxResults : Z) (includeHidden : bool)
    (excludePatterns : list string)
    (entries : list Dirent) (results : list FileItem) : list FileItem :=
  match entries with
  | [] => results
  | entry :: rest =>
      let next := forEntries h recur dirPath query maxResults includeHidden
                    excludePatterns rest in
      if full results maxResults then results
      else
        let fullPath := join h dirPath (ent_name entry) in
        let isHidden := startsWith (ent_name entry) (charAt DOT) in
        if isHidden && negb includeHidden then next results
        else if existsb (fun pattern => includes (ent_name entry) pattern)
                  excludePatterns
        then next results
        else
          let pushed :=
            if includes (toLowerCase (ent_name entry)) query then
              match stat h fullPath with
              | Some stats => results ++ [fileItem h fullPath entry stats]
              | None => results
              end
            else results in
          let searched :=
            if ent_isDirectory entry && negb isHidden
            then recur fullPath pushed
            else pushed in
          next searched
  end.

(** [searchDirectory] with its recursion unrolled [fuel] times. The results
    array, mutated in place by the source, is threaded through. A failing
    [readdir] is caught and leaves the results as they are. *)
Fixpoint searchDirectoryRec (fuel : nat) (h : Host) (dirPath query : string)
    (results : list FileItem) (maxResults : Z) (includeHidden : bool)
    (excludePatterns : list string) (depth : nat) : list FileItem :=
  match fuel with
  | O => results
  | S fuel' =>
      if Nat.ltb 5 depth || full results maxResults then results
      else
        match readdir h dirPath with
        | Some entries =>
            forEntries h
              (fun fullPath pushed =>
                 searchDirectoryRec fuel' h fullPath query pushed maxResults
                   includeHidden excludePatterns (depth + 1))
              dirPath query maxResults includeHidden excludePatterns
              entries results
        | None => results
        end
  end.

(** The depth test bounds the recursion: a call at [depth] nests at most
    [6 - depth] calls below it, the last of which returns at once. *)
Definition searchDirectory (h : Host) (dirPath query : string)
    (results : list FileItem) (maxResults : Z) (includeHidden : bool)
    (excludePatterns : list string) (depth : nat) : list FileItem :=
  searchDirectoryRec (6 - depth) h dirPath query results maxResults
    includeHidden excludePatterns depth.

(** The loop of [searchFileSystem] over the search paths. [searchDirectory]
    catches what it can throw, so the handler of this loop never runs. *)
Fixpoint forSearchPaths (h : Host) (queryLower : string)
    (searchPaths : list string) (files : list FileItem) (maxResults : Z)
    (includeHidden : bool) (excludePatterns : list string) : list FileItem :=
  match searchPaths with
  | [] => files
  | searchPath :: rest =>
      let files' := searchDirectory h searchPath queryLower files maxResults
                      includeHidden excludePatterns 0 in
      if full files' maxResults then files'
      else forSearchPaths h queryLower rest files' maxResults includeHidden
             excludePatterns
  end.

Definition searchFileSystem (h : Host) (query : string)
    (searchPaths : list string) (maxResults : Z) (includeHidden : bool)
    (excludePatterns : list string) : list FileItem :=
  let queryLower := toLowerCase query in
  slice0
    (forSearchPaths h queryLower searchPaths [] maxResults includeHidden
       excludePatterns)
    maxResults.

(** [text.split(',').map(s => s.trim()).filter(s => s.length > 0)] *)
Definition commaList (text : string) : list string :=
  filter (fun s => Nat.ltb 0 (String.length s))
    (map trim (splitChar COMMA text)).

Definition searchPathsOf (preferences : Preferences) : list string :=
  commaList (searchPaths preferences).

Definition excludePatternsOf (preferences : Preferences) : list string :=
  commaList (excludePatterns preferences).

Definition maxResultsOf (h : Host) (preferences : Preferences) : Z :=
  numberOr (parseInt h (maxResults preferences)) 100.

(** [searchFiles] of the component; [startTime] and [endTime] are the two
    readings of [Date.now()]. The [isSearching] flag of the component, set
    on entry and cleared in the [finally] block, does not reach the result
    and is left out. The inner [catch] is the [Throw] branch. *)
Definition searchFiles (h : Host) (preferences : Preferences)
    (startTime endTime : Z) (query : string) : SearchResult :=
  if negb (truthy (trim query)) then
    {| files := []; totalCount := 0; searchTime := 0 |}
  else
    let fallback :=
      searchFileSystem h query (searchPathsOf preferences)
        (maxResultsOf h preferences) (includeHidden preferences)
        (excludePatternsOf preferences) in
    let files :=
      if useEverything preferences then
        match searchWithEverything h query (maxResultsOf h preferences) with
        | Ok found => found
        | Throw _ => fallback
        end
      else fallback in
    {| files := files;
       totalCount := List.length files;
       searchTime := endTime - startTime |}.

(** The icons of the host API that [getFileIcon] answers. *)
Inductive Icon : Type :=
| Folder | Document | Image | Video | Music | Archive | Gear | Code.

Definition iconMap : list (string * Icon) :=
  [ (".txt", Document); (".md", Document); (".pdf", Document);
    (".doc", Document); (".docx", Document);
    (".jpg", Image); (".jpeg", Image); (".png", Image); (".gif", Image);
    (".mp4", Video); (".avi", Video);
    (".mp3", Music); (".wav", Music);
    (".zip", Archive); (".rar", Archive);
    (".exe", Gear);
    (".js", Code); (".ts", Code); (".tsx", Code); (".py", Code);
    (".java", Code) ].

(** [iconMap[key]], for a key that does not name a property inherited by
    every object; an extension does not, as it is empty or starts with a
    dot. *)
Definition iconOf (key : string) : option Icon :=
  match find (fun kv => String.eqb (fst kv) key) iconMap with
  | Some kv => Some (snd kv)
  | None => None
  end.

Definition getFileIcon (item : FileItem) : Icon :=
  match type item with
  | directory => Folder
  | file =>
      let key :=
        match extension item with
        | Some e => if truthy e then e else EmptyString
        | None => EmptyString
        end in
      match iconOf key with
      | Some icon => icon
      | None => Document
      end
  end.

Definition units : list string := ["B"; "KB"; "MB"; "GB"; "TB"].

(** The loop of [formatFileSize]: the running size is [bytes / 1024^unitIndex],
    a quotient that binary floating point holds exactly for a whole
    number of bytes below 2^53, so [size >= 1024] is
    [bytes >= 1024^unitIndex * 1024]. The loop runs at most four times. *)
Fixpoint scaleLoop (fuel : nat) (bytes : Z) (unitIndex : nat) : nat :=
  match fuel with
  | O => unitIndex
  | S fuel' =>
      if (1024 ^ Z.of_nat unitIndex * 1024 <=? bytes)%Z
         && Nat.ltb unitIndex (List.length units - 1)
      then scaleLoop fuel' bytes (S unitIndex)
      else unitIndex
  end.

(** The tenths shown by [(num / den).toFixed(1)] for a quotient that is not
    negative: the nearest number of tenths, the larger one on a tie. *)
Definition tenths (num den : Z) : Z := ((20 * num + den) / (2 * den))%Z.

Definition showTenths (n : Z) : string :=
  (showInt (n / 10) ++ "." ++ showInt (n mod 10))%string.

Definition formatFileSize (bytes : Z) : string :=
  let unitIndex := scaleLoop (List.length units - 1) bytes 0 in
  let shown :=
    if Nat.eqb unitIndex 0 then showInt bytes
    else showTenths (tenths bytes (1024 ^ Z.of_nat unitIndex)) in
  (shown ++ " " ++ nth unitIndex units EmptyString)%string.

(** A [Set] of strings: its elements without repetition, in the order of
    their insertion. *)
Definition StringSet : Type := list string.

Definition setHas (s : StringSet) (x : string) : bool :=
  existsb (String.eqb x) s.

Definition setDelete (s : StringSet) (x : string) : StringSet :=
  filter (fun y => negb (String.eqb y x)) s.

Definition setAdd (s : StringSet) (x : string) : StringSet :=
  if setHas s x then s else s ++ [x].

(** The updater that [toggleFileSelection] hands to [setSelectedFiles]. *)
Definition toggleFileSelection (prev : StringSet) (filePath : string)
    : StringSet :=
  let newSet := prev in
  if setHas newSet filePath then setDelete newSet filePath
  else setAdd newSet filePath.

Inductive ToastStyle : Type := Success | Failure.

Record ToastOptions : Type := {
  toastStyle : ToastStyle;
  toastTitle : string;
  toastMessage : option string
}.

Section BulkDelete.

(** The state of the file system, and [trash]: the state after the call
    and whether the promise resolved. *)
Variable World : Type.
Variable trash : World -> string -> World * bool.

(** The loop of [handleBulkDelete] over the selected paths. *)
Fixpoint trashEach (w : World) (filesToDelete : list string)
    (successCount errorCount : nat) : World * nat * nat :=
  match filesToDelete with
  | [] => (w, successCount, errorCount)
  | filePath :: rest =>
      let (w', resolved) := trash w filePath in
      if resolved then trashEach w' rest (successCount + 1) errorCount
      else trashEach w' rest successCount (errorCount + 1)
  end.

(** [handleBulkDelete]: [confirmed] is the answer to the alert, asked only
    when the selection is not empty; the result is the state of the file
    system, the selection and the toast shown, if any. *)
Definition handleBulkDelete (selectedFiles : StringSet) (confirmed : bool)
    (w : World) : World * StringSet * option ToastOptions :=
  if Nat.eqb (List.length selectedFiles) 0 then (w, selectedFiles, None)
  else if negb confirmed then (w, selectedFiles, None)
  else
    let filesToDelete := selectedFiles in
    match trashEach w filesToDelete 0 0 with
    | (w', successCount, errorCount) =>
        (w', [],
         Some {| toastStyle :=
                   if Nat.eqb errorCount 0 then Success else Failure;
                 toastTitle :=
                   ("Deleted " ++ showInt (Z.of_nat successCount)
                      ++ " files")%string;
                 toastMessage :=
                   if Nat.ltb 0 errorCount
                   then Some (showInt (Z.of_nat errorCount)
                                ++ " files failed to delete")%string
                   else None |})
    end.

End BulkDelete.

End FileSearch.

(** ** Specification-level notions for the recursive search *)

Module SearchSpec.
Import Js FileSearch.

Section Walk.

Variable h : Host.
Variables (query : string) (includeHidden : bool)
  (excludePatterns : list string).

(** The entry is passed over by one of the two [continue] statements. *)
Definition skipped (entry : Dirent) : bool :=
  startsWith (ent_name entry) (charAt DOT) && negb includeHidden
  || existsb (fun pattern => includes (ent_name entry) pattern)
       excludePatterns.

(** The lower-cased name of the entry contains the query. *)
Definition matches (entry : Dirent) : bool :=
  includes (toLowerCase (ent_name entry)) query.

(** The search recurses into the entry. *)
Definition descends (entry : Dirent) : bool :=
  ent_isDirectory entry && negb (startsWith (ent_name entry) (charAt DOT)).

(** What one entry of [dirPath] contributes when no result cap interferes:
    its own record, then what lies [below] it. *)
Definition visit (below : string -> list FileItem) (dirPath : string)
    (entry : Dirent) : list FileItem :=
  if skipped entry then []
  else
    let fullPath := join h dirPath (ent_name entry) in
    (if matches entry then
       match stat h fullPath with
       | Some stats => [fileItem h fullPath entry stats]
       | None => []
       end
     else [])
    ++ (if descends entry then below fullPath else []).

(** The traversal without the result cap: every record that the search
    would push, in the order of the traversal. *)
Fixpoint walkRec (fuel : nat) (dirPath : string) (depth : nat)
    : list FileItem :=
  match fuel with
  | O => []
  | S fuel' =>
      if Nat.ltb 5 depth then []
      else
        match readdir h dirPath with
        | Some entries =>
            flat_map
              (visit (fun fullPath => walkRec fuel' fullPath (depth + 1))
                 dirPath)
              entries
        | None => []
        end
  end.

Definition walk (dirPath : string) (depth : nat) : list FileItem :=
  walkRec (6 - depth) dirPath depth.

(** [located dir ancestors p entry]: [entry] is listed, with full path [p],
    in the directory reached from [dir] through the directory entries
    [ancestors], outermost first. An entry listed in [dir] itself has no
    ancestors; with [dir] at depth 0 the entry lies at depth
    [1 + length ancestors]. *)
Inductive located : string -> list Dirent -> string -> Dirent -> Prop :=
| located_here dir entries entry :
    readdir h dir = Some entries ->
    In entry entries ->
    located dir [] (join h dir (ent_name entry)) entry
| located_below dir entries sub ancestors p entry :
    readdir h dir = Some entries ->
    In sub entries ->
    ent_isDirectory sub = true ->
    located (join h dir (ent_name sub)) ancestors p entry ->
    located dir (sub :: ancestors) p entry.

(** Depth of a located entry below its root (the root is at depth 0). *)
Definition depthOf (ancestors : list Dirent) : nat := S (List.length ancestors).

(** The search goes through the directory entry: it is neither skipped nor
    hidden. *)
Definition passable (entry : Dirent) : bool :=
  negb (skipped entry) && descends entry.

End Walk.

(** [results] followed by as much of [more] as the cap leaves room for. *)
Definition capped (maxResults : Z) (results more : list FileItem)
    : list FileItem :=
  results
  ++ firstn (Z.to_nat (maxResults - Z.of_nat (List.length results))) more.

(** The command line that [searchWithEverything] hands to the shell. *)
Definition everythingCommand (query : string) (maxResults : Z) : string :=
  ("chcp 65001 > nul && "
     ++ ("es.exe -n " ++ showInt maxResults ++ " -size -date-modified "
           ++ charAt DQUOTE ++ query ++ charAt DQUOTE))%string.

(** The host in which every failing [readdir] answers an empty directory. *)
Definition emptyWhenUnreadable (h : Host) : Host :=
  {| join := join h; basename := basename h; extname := extname h;
     parseInt := parseInt h;
     readdir := fun dir =>
       match readdir h dir with
       | Some entries => Some entries
       | None => Some []
       end;
     stat := stat h; execAsync := execAsync h |}.

End SearchSpec.

(** ** A sample host, for the concrete instances below *)

Module Sample.
Import Js FileSearch.

Definition sep : string := charAt BACKSLASH.

(** [path.join] on two plain components of a Windows path. *)
Definition joinWin (dir name : string) : string :=
  (dir ++ sep ++ name)%string.

Definition basenameWin (p : string) : string :=
  last (splitChar BACKSLASH p) EmptyString.

(** The suffix of [s] that starts at its last dot. *)
Fixpoint fromLastDot (s : string) : option string :=
  match s with
  | EmptyString => None
  | String c r =>
      match fromLastDot r with
      | Some t => Some t
      | None => if Ascii.eqb c DOT then Some s else None
      end
  end.

(** [path.extname]: from the last dot of the base name, unless that dot
    opens the base name. *)
Definition extnameWin (p : string) : string :=
  match basenameWin p with
  | EmptyString => EmptyString
  | String _ r =>
      match fromLastDot r with
      | Some t => t
      | None => EmptyString
      end
  end.

Fixpoint digitsValue (acc : option Z) (s : string) : option Z :=
  match s with
  | EmptyString => acc
  | String c r =>
      let n := N_of_ascii c in
      if ((48 <=? n) && (n <=? 57))%N then
        digitsValue
          (Some (10 * match acc with Some v => v | None => 0 end
                 + Z.of_N (n - 48))%Z) r
      else acc
  end.

(** [parseInt] on an unsigned decimal prefix. *)
Definition parseIntDec (s : string) : option Z :=
  digitsValue None (trimStart s).

Definition dirEntry (n : string) : Dirent :=
  {| ent_name := n; ent_isDirectory := true; ent_isFile := false |}.

Definition fileEntry (n : string) : Dirent :=
  {| ent_name := n; ent_isDirectory := false; ent_isFile := true |}.

(** A file system given by the listing of each of its directories; [None]
    marks a directory that cannot be read, and a path that is not listed is
    not a directory. *)
Definition Listing : Type := list (string * option (list Dirent)).

Definition listingOf (dirs : Listing) (p : string)
    : option (list Dirent) :=
  match find (fun d => String.eqb (fst d) p) dirs with
  | Some d => snd d
  | None => None
  end.

Definition statOf (dirs : Listing) (p : string) : option Stats :=
  Some {| st_size := Z.of_nat (String.length p);
          st_mtime := DateAt 0;
          st_isDirectory := existsb (fun d => String.eqb (fst d) p) dirs |}.

Definition hostOf (dirs : Listing) (shell : result string) : Host :=
  {| join := joinWin; basename := basenameWin; extname := extnameWin;
     parseInt := parseIntDec;
     readdir := listingOf dirs; stat := statOf dirs;
     execAsync := fun _ => shell |}.

Definition root : string := ("C:" ++ sep ++ "r")%string.

(** [under dir names] is the path of [names], outermost first, below [dir]. *)
Definition under (dir : string) (names : list string) : string :=
  fold_left joinWin names dir.

(** A chain of directories a/b/c/d/e below the root; e holds a file and a
    directory f, which holds one more file. *)
Definition deepTree : Listing :=
  [ (root, Some [dirEntry "a"]);
    (under root ["a"], Some [dirEntry "b"]);
    (under root ["a"; "b"], Some [dirEntry "c"]);
    (under root ["a"; "b"; "c"], Some [dirEntry "d"]);
    (under root ["a"; "b"; "c"; "d"], Some [dirEntry "e"]);
    (under root ["a"; "b"; "c"; "d"; "e"],
       Some [fileEntry "hit.txt"; dirEntry "f"]);
    (under root ["a"; "b"; "c"; "d"; "e"; "f"], Some [fileEntry "hit2.txt"]) ].

Definition noShell : result string := Throw "spawn es.exe ENOENT".

Definition deepHost : Host := hostOf deepTree noShell.

(** A second root next to the first one. Below the first root: two plain
    files, a hidden file, a hidden directory with a file in it, a directory
    that cannot be read, and a directory holding a hidden and a plain
    file. Below the second root: one file. *)
Definition root2 : string := ("C:" ++ sep ++ "s")%string.

Definition wideTree : Listing :=
  [ (root, Some [fileEntry "hit1.txt"; fileEntry ".hit2"; dirEntry ".hithub";
                 dirEntry "locked"; dirEntry "hitdir"; fileEntry "other.md"]);
    (under root [".hithub"], Some [fileEntry "hit3.txt"]);
    (under root ["locked"], None);
    (under root ["hitdir"], Some [fileEntry ".hit4"; fileEntry "hit5.TXT"]);
    (root2, Some [fileEntry "Hit6.txt"]) ].

Definition wideHost : Host := hostOf wideTree noShell.

(** The preferences of the component: both roots, Everything enabled,
    hidden files not included. *)
Definition preferences : Preferences :=
  {| searchPaths := (root ++ ", " ++ root2)%string;
     maxResults := "100";
     includeHidden := false;
     useEverything := true;
     excludePatterns := "node_modules,.git,Thumbs.db" |}.

(** A host on which Everything answers one row, for a hidden file. *)
Definition everythingOutput : string :=
  (under root [".hit2"] ++ charAt TAB ++ "120" ++ charAt TAB
     ++ "2024-01-01")%string.

Definition everythingHost : Host := hostOf wideTree (Ok everythingOutput).

Definition quoted (s : string) : string :=
  (charAt DQUOTE ++ s ++ charAt DQUOTE)%string.

(** Three rows of process listing; the second one has no pid field. *)
Definition tasklistOutput : string :=
  (quoted "a.exe" ++ "," ++ quoted "12" ++ "," ++ quoted "Console" ++ ","
     ++ quoted "1" ++ "," ++ quoted "10,240 K" ++ charAt CR ++ charAt LF
   ++ quoted "b.exe" ++ charAt CR ++ charAt LF
   ++ quoted "c.exe" ++ "," ++ quoted "7")%string.

End Sample.

(** The host in which [dir] is listed as [listing]. *)
Definition withListing (h : FileSearch.Host) (dir : string)
    (listing : option (list FileSearch.Dirent)) : FileSearch.Host :=
  {| FileSearch.join := FileSearch.join h;
     FileSearch.basename := FileSearch.basename h;
     FileSearch.extname := FileSearch.extname h;
     FileSearch.parseInt := FileSearch.parseInt h;
     FileSearch.readdir := fun p =>
       if String.eqb p dir then listing else FileSearch.readdir h p;
     FileSearch.stat := FileSearch.stat h;
     FileSearch.execAsync := FileSearch.execAsync h |}.

(** * Properties of the record parser *)

Section ParserFacts.
Import Js ProcessManager ParserSpec.

Lemma scanFrom_app (st : Scan) (a b : string) :
  scanFrom st (a ++ b)%string = scanFrom (scanFrom st a) b.
Proof.
  revert st; induction a as [|c a IH]; intros st; simpl; auto.
Qed.

Lemma scanChar_quote (st : Scan) :
  scanChar st DQUOTE
  = {| parts := parts st; current := current st;
       inQuotes := negb (inQuotes st) |}.
Proof. reflexivity. Qed.

(** Inside a quoted span, a run without quotes only grows the current
    field. *)
Lemma scanFrom_quoted_run (rest : string) :
  forall st,
    inQuotes st = true ->
    occurrences DQUOTE rest = 0 ->
    scanFrom st rest
    = {| parts := parts st; current := (current st ++ rest)%string;
         inQuotes := true |}.
Proof.
  induction rest as [|c rest IH]; intros [ps cur q] Hq Hn; simpl in *.
  - subst q. f_equal. clear. induction cur; simpl; congruence.
  - subst q. destruct (Ascii.eqb c DQUOTE) eqn:Hc; [discriminate|].
    unfold scanChar. rewrite Hc. simpl.
    rewrite andb_false_r. rewrite IH by auto. simpl. f_equal.
    clear. induction cur; simpl; congruence.
Qed.

(** The flag after a scan is the parity of the quotes met. *)
Lemma inQuotes_scanFrom (line : string) :
  forall st,
    inQuotes (scanFrom st line)
    = xorb (inQuotes st) (Nat.odd (occurrences DQUOTE line)).
Proof.
  induction line as [|c line IH]; intros st; simpl.
  - now rewrite xorb_false_r.
  - rewrite IH. unfold scanChar.
    destruct (Ascii.eqb c DQUOTE) eqn:Hc; simpl.
    + rewrite Nat.odd_succ, <- Nat.negb_odd.
      destruct (inQuotes st), (Nat.odd (occurrences DQUOTE line)); reflexivity.
    + destruct (Ascii.eqb c COMMA && negb (inQuotes st)); reflexivity.
Qed.

Lemma occurrences_app (c : ascii) (a b : string) :
  occurrences c (a ++ b)%string = occurrences c a + occurrences c b.
Proof.
  induction a as [|x a IH]; simpl; auto. rewrite IH. lia.
Qed.

(** With every comma outside the quoted spans, each comma closes a field. *)
Lemma parts_scanFrom_unquoted (line : string) :
  forall st,
    commasUnquoted (inQuotes st) line = true ->
    List.length (parts (scanFrom st line))
    = List.length (parts st) + occurrences COMMA line.
Proof.
  induction line as [|c line IH]; intros st H; simpl in *; [lia|].
  unfold scanChar.
  destruct (Ascii.eqb c DQUOTE) eqn:Hq.
  - apply Ascii.eqb_eq in Hq; subst c. rewrite IH by exact H. simpl. lia.
  - destruct (Ascii.eqb c COMMA) eqn:Hc; simpl.
    + apply andb_true_iff in H as [Hn H]. rewrite Hn. simpl.
      rewrite IH by exact H. simpl. rewrite length_app. simpl. lia.
    + rewrite IH by exact H. simpl. lia.
Qed.

Lemma length_parseLine_unquoted (line : string) :
  commasUnquoted false line = true ->
  List.length (parseLine line) = S (occurrences COMMA line).
Proof.
  intros H. unfold parseLine. rewrite length_app.
  rewrite (parts_scanFrom_unquoted line scanStart H). simpl. lia.
Qed.

Lemma hasNameAndPid_toProcess (row : list string) :
  hasNameAndPid (toProcess row) = wellFormed row.
Proof.
  unfold hasNameAndPid, wellFormed, toProcess, fieldOr, hasField. simpl.
  destruct row as [|f0 [|f1 row]]; simpl.
  - reflexivity.
  - destruct f0; reflexivity.
  - destruct f0, f1; reflexivity.
Qed.

End ParserFacts.

Section ParserClaims.
Import Js ProcessManager ParserSpec.

(** C5: the single line made of a quoted field that holds a comma, followed
    by two plain fields, parses to exactly one row of three fields: the
    embedded comma does not separate, and the quotes are stripped. *)
Theorem parseWindowsCSV_quoted_comma :
  parseWindowsCSV
    (charAt DQUOTE ++ "a,b" ++ charAt DQUOTE ++ ",c,d")%string
  = [["a,b"; "c"; "d"]].
Proof. vm_compute. reflexivity. Qed.

(** C6: in a line [pre ++ quote ++ rest] whose quote is unmatched (the
    quotes of [pre] pair up and [rest] holds no quote), [inQuotes] is true at
    every position of [rest] and no field is closed there: the commas of
    [rest] do not separate, and the whole of [rest] ends up in the field
    that was open at the quote. *)
Theorem unmatched_quote_keeps_inQuotes (pre rest : string) :
  balanced pre = true ->
  occurrences DQUOTE rest = 0 ->
  let before := scanFrom scanStart pre in
  (forall mid tail : string,
      rest = (mid ++ tail)%string ->
      let st := scanFrom scanStart (pre ++ String DQUOTE mid)%string in
      inQuotes st = true /\ parts st = parts before)
  /\ parseLine (pre ++ String DQUOTE rest)%string
     = parts before ++ [trim (current before ++ rest)%string].
Proof.
  intros Hbal Hrest before.
  assert (Hopen : inQuotes (scanChar before DQUOTE) = true).
  { rewrite scanChar_quote. simpl. unfold before.
    rewrite inQuotes_scanFrom. simpl.
    unfold balanced in Hbal. rewrite <- Nat.negb_even, Hbal. reflexivity. }
  split.
  - intros mid tail Hsplit st. unfold st.
    rewrite scanFrom_app. simpl. fold before.
    assert (Hmid : occurrences DQUOTE mid = 0).
    { rewrite Hsplit, occurrences_app in Hrest. lia. }
    rewrite (scanFrom_quoted_run mid _ Hopen Hmid). simpl. auto.
  - unfold parseLine. rewrite scanFrom_app. simpl. fold before.
    rewrite (scanFrom_quoted_run rest _ Hopen Hrest). reflexivity.
Qed.

Lemma unmatched_quote_keeps_inQuotes_witness :
  parseLine ("a," ++ String DQUOTE "b,c")%string = ["a"; "b,c"].
Proof.
  exact (proj2 (unmatched_quote_keeps_inQuotes "a," "b,c" eq_refl eq_refl)).
Defined.

(** C7: when in every line of the input all commas lie outside the quoted
    spans, every line parses to as many fields as it has commas, plus one,
    and the rows returned are those of the lines that the final filter
    keeps (a line whose first field is empty yields no row). Balanced
    quoting is not needed for the count. *)
Theorem field_count_is_commas_plus_one (csvOutput : string) :
  (forall line : string,
      In line (splitLines (trim csvOutput)) ->
      commasUnquoted false line = true) ->
  let lines := splitLines (trim csvOutput) in
  Forall
    (fun line => List.length (parseLine line) = S (occurrences COMMA line))
    lines
  /\ parseWindowsCSV csvOutput
     = map parseLine (filter (fun line => keepRow (parseLine line)) lines).
Proof.
  intros H lines. split.
  - apply Forall_forall. intros line Hin.
    apply length_parseLine_unquoted, H, Hin.
  - unfold parseWindowsCSV. apply filter_map_swap.
Qed.

Lemma field_count_is_commas_plus_one_witness :
  parseWindowsCSV ("x,,y" ++ String LF ("p, " ++ String DQUOTE "q"
                     ++ String DQUOTE ",r,s"))%string
  = [["x"; EmptyString; "y"]; ["p"; "q"; "r"; "s"]].
Proof.
  refine (proj2 (field_count_is_commas_plus_one
                   ("x,,y" ++ String LF ("p, " ++ String DQUOTE "q"
                      ++ String DQUOTE ",r,s"))%string _)).
  intros line [<-|[<-|[]]]; reflexivity.
Defined.

(** C8: when the listing command succeeds, [getRunningProcesses] returns
    the records of exactly the parsed rows that carry both a name and a pid,
    in the order of the rows; a row without a pid field (or with an empty
    one) is dropped, and each record repeats the name and the pid of its
    row. *)
Theorem getRunningProcesses_drops_incomplete_rows
    (execAsync : string -> ExecOutcome) (stdout stderr : string) :
  execAsync tasklistCommand = Exited stdout stderr ->
  let rows := parseWindowsCSV (trim stdout) in
  getRunningProcesses execAsync = Ok (map toProcess (filter wellFormed rows))
  /\ Forall
       (fun row =>
          nth_error row 0 = Some (name (toProcess row))
          /\ nth_error row 1 = Some (pid (toProcess row)))
       (filter wellFormed rows).
Proof.
  intros Hexec rows. split.
  - unfold getRunningProcesses, runWindowsCommand.
    change ("chcp 65001 > nul && " ++ "tasklist /fo csv /nh")%string
      with tasklistCommand.
    rewrite Hexec. fold rows. f_equal.
    rewrite filter_map_swap. f_equal.
    apply filter_ext. intros row. apply hasNameAndPid_toProcess.
  - apply Forall_forall. intros row Hin.
    apply filter_In in Hin as [_ Hwf].
    unfold wellFormed, hasField in Hwf.
    apply andb_true_iff in Hwf as [H0 H1].
    unfold toProcess, fieldOr. simpl.
    destruct row as [|f0 [|f1 row]]; simpl in *; try discriminate.
    rewrite H0, H1. auto.
Qed.

Lemma getRunningProcesses_drops_incomplete_rows_witness :
  getRunningProcesses
    (fun _ => Exited Sample.tasklistOutput EmptyString)
  = Ok [ {| name := "a.exe"; pid := "12"; sessionName := "Console";
            sessionNumber := "1"; memUsage := "10,240 K";
            status := Some Running |};
         {| name := "c.exe"; pid := "7"; sessionName := EmptyString;
            sessionNumber := EmptyString; memUsage := EmptyString;
            status := Some Running |} ].
Proof.
  exact (proj1 (getRunningProcesses_drops_incomplete_rows
                  (fun _ => Exited Sample.tasklistOutput EmptyString)
                  Sample.tasklistOutput EmptyString eq_refl)).
Defined.

End ParserClaims.

(** * Properties of the recursive search *)

Section SearchFacts.
Import Js FileSearch SearchSpec.

Variable h : Host.
Variables (query : string) (maxResults : Z) (includeHidden : bool)
  (excludePatterns : list string).

Lemma capped_full (results more : list FileItem) :
  full results maxResults = true -> capped maxResults results more = results.
Proof.
  unfold full, capped. intros H. apply Z.leb_le in H.
  replace (Z.to_nat (maxResults - Z.of_nat (List.length results))) with 0
    by lia.
  simpl. apply app_nil_r.
Qed.

Lemma capped_nil (results : list FileItem) :
  capped maxResults results [] = results.
Proof. unfold capped. rewrite firstn_nil. apply app_nil_r. Qed.

Lemma capped_one (results : list FileItem) (item : FileItem) :
  full results maxResults = false ->
  capped maxResults results [item] = results ++ [item].
Proof.
  unfold full, capped. intros H. apply Z.leb_gt in H.
  destruct (Z.to_nat (maxResults - Z.of_nat (List.length results))) eqn:E;
    [lia|]. simpl. now rewrite firstn_nil.
Qed.

Lemma capped_app (results a b : list FileItem) :
  capped maxResults (capped maxResults results a) b
  = capped maxResults results (a ++ b).
Proof.
  unfold capped. rewrite <- app_assoc. f_equal.
  rewrite firstn_app. f_equal. f_equal.
  rewrite length_app, length_firstn. lia.
Qed.

Lemma forEntries_capped
    (recur : string -> list FileItem -> list FileItem)
    (below : string -> list FileItem) (dirPath : string) :
  (forall p results, recur p results = capped maxResults results (below p)) ->
  forall entries results,
    forEntries h recur dirPath query maxResults includeHidden excludePatterns
      entries results
    = capped maxResults results
        (flat_map (visit h query includeHidden excludePatterns below dirPath)
           entries).
Proof.
  intros Hrecur. induction entries as [|entry rest IH]; intros results.
  - simpl. symmetry. apply capped_nil.
  - cbn [forEntries flat_map].
    destruct (full results maxResults) eqn:Hfull.
    { symmetry. apply capped_full, Hfull. }
    unfold visit, skipped.
    destruct (startsWith (ent_name entry) (charAt DOT) && negb includeHidden)
      eqn:Hhid; simpl.
    { apply IH. }
    destruct (existsb (fun pattern => includes (ent_name entry) pattern)
                excludePatterns) eqn:Hex; simpl.
    { apply IH. }
    rewrite IH. rewrite <- app_assoc, <- !capped_app. f_equal.
    assert (Hpushed :
      (if includes (toLowerCase (ent_name entry)) query
       then match stat h (join h dirPath (ent_name entry)) with
            | Some stats =>
                results ++ [fileItem h (join h dirPath (ent_name entry))
                              entry stats]
            | None => results
            end
       else results)
      = capped maxResults results
          (if matches query entry
           then match stat h (join h dirPath (ent_name entry)) with
                | Some stats =>
                    [fileItem h (join h dirPath (ent_name entry)) entry stats]
                | None => []
                end
           else [])).
    { unfold matches.
      destruct (includes (toLowerCase (ent_name entry)) query).
      - destruct (stat h (join h dirPath (ent_name entry))).
        + symmetry. apply capped_one, Hfull.
        + symmetry. apply capped_nil.
      - symmetry. apply capped_nil. }
    rewrite Hpushed. unfold descends.
    destruct (ent_isDirectory entry
              && negb (startsWith (ent_name entry) (charAt DOT))).
    + apply Hrecur.
    + symmetry. apply capped_nil.
Qed.

(** The search is the uncapped traversal cut at the result cap. *)
Lemma searchDirectoryRec_capped (fuel : nat) :
  forall dirPath results depth,
    searchDirectoryRec fuel h dirPath query results maxResults includeHidden
      excludePatterns depth
    = capped maxResults results
        (walkRec h query includeHidden excludePatterns fuel dirPath depth).
Proof.
  induction fuel as [|fuel IH]; intros dirPath results depth; simpl.
  - symmetry. apply capped_nil.
  - destruct (Nat.ltb 5 depth); simpl.
    { symmetry. apply capped_nil. }
    destruct (full results maxResults) eqn:Hfull.
    { symmetry. apply capped_full, Hfull. }
    destruct (readdir h dirPath) as [entries|].
    + apply forEntries_capped. intros p res. apply IH.
    + symmetry. apply capped_nil.
Qed.

Lemma forSearchPaths_capped (searchPaths : list string) :
  forall files,
    forSearchPaths h query searchPaths files maxResults includeHidden
      excludePatterns
    = capped maxResults files
        (flat_map
           (fun root => walk h query includeHidden excludePatterns root 0)
           searchPaths).
Proof.
  induction searchPaths as [|root rest IH]; intros files; simpl.
  - symmetry. apply capped_nil.
  - unfold searchDirectory. rewrite searchDirectoryRec_capped.
    rewrite <- capped_app. fold (walk h query includeHidden excludePatterns root 0).
    destruct (full _ maxResults) eqn:Hfull.
    + symmetry. apply capped_full, Hfull.
    + apply IH.
Qed.

(** [searchDirectory] satisfies the recursive equation of the source: the
    unrolling behind it is deep enough at every depth. *)
Lemma searchDirectory_unfold (dirPath : string) (results : list FileItem)
    (depth : nat) :
  searchDirectory h dirPath query results maxResults includeHidden
    excludePatterns depth
  = if Nat.ltb 5 depth || full results maxResults then results
    else
      match readdir h dirPath with
      | Some entries =>
          forEntries h
            (fun fullPath pushed =>
               searchDirectory h fullPath query pushed maxResults
                 includeHidden excludePatterns (depth + 1))
            dirPath query maxResults includeHidden excludePatterns
            entries results
      | None => results
      end.
Proof.
  unfold searchDirectory. destruct (Nat.ltb 5 depth) eqn:Hdepth.
  - apply Nat.ltb_lt in Hdepth.
    replace (6 - depth) with 0 by lia. reflexivity.
  - assert (Hle : depth <= 5) by (apply Nat.ltb_ge, Hdepth).
    replace (6 - depth) with (S (6 - (depth + 1))) by lia.
    cbn [searchDirectoryRec]. rewrite Hdepth. reflexivity.
Qed.

Lemma In_firstn {A : Type} (n : nat) (l : list A) (x : A) :
  In x (firstn n l) -> In x l.
Proof.
  revert l; induction n as [|n IH]; intros [|y l]; simpl; try tauto.
  intros [->|H]; auto.
Qed.

(** Every record of the uncapped traversal comes from an entry that is
    located below the directory, through directories the search passes, at a
    depth the depth test allows. *)
Lemma walkRec_sound (fuel : nat) :
  forall dirPath depth r,
    In r (walkRec h query includeHidden excludePatterns fuel dirPath depth) ->
    exists ancestors entry stats,
      located h dirPath ancestors (path r) entry
      /\ stat h (path r) = Some stats
      /\ r = fileItem h (path r) entry stats
      /\ depth + List.length ancestors <= 5
      /\ forallb (passable includeHidden excludePatterns) ancestors = true
      /\ skipped includeHidden excludePatterns entry = false
      /\ matches query entry = true.
Proof.
  induction fuel as [|fuel IH]; intros dirPath depth r Hin; simpl in Hin.
  - contradiction.
  - destruct (Nat.ltb 5 depth) eqn:Hdepth; [contradiction|].
    apply Nat.ltb_ge in Hdepth.
    destruct (readdir h dirPath) as [entries|] eqn:Hdir; [|contradiction].
    apply in_flat_map in Hin as (sub & Hsub & Hin).
    unfold visit in Hin.
    destruct (skipped includeHidden excludePatterns sub) eqn:Hskip;
      [contradiction|].
    apply in_app_or in Hin as [Hown|Hbelow].
    + destruct (matches query sub) eqn:Hmatch; [|contradiction].
      destruct (stat h (join h dirPath (ent_name sub))) as [stats|] eqn:Hstat;
        [|contradiction].
      destruct Hown as [<-|[]]. simpl.
      exists [], sub, stats. repeat split; auto.
      * econstructor; eauto.
      * simpl. lia.
    + destruct (descends sub) eqn:Hdesc; [|contradiction].
      apply IH in Hbelow
        as (ancestors & entry & stats & Hloc & Hstat & Hr & Hd & Hp & Hs & Hm).
      exists (sub :: ancestors), entry, stats. repeat split; auto.
      * econstructor; eauto.
        unfold descends in Hdesc. now apply andb_true_iff in Hdesc.
      * simpl. lia.
      * simpl. unfold passable at 1. now rewrite Hskip, Hdesc, Hp.
Qed.

(** Conversely, every such entry has its record in the uncapped
    traversal. *)
Lemma walkRec_complete (dirPath : string) (ancestors : list Dirent)
    (p : string) (entry : Dirent) :
  located h dirPath ancestors p entry ->
  forall fuel depth stats,
    6 <= fuel + depth ->
    depth + List.length ancestors <= 5 ->
    forallb (passable includeHidden excludePatterns) ancestors = true ->
    skipped includeHidden excludePatterns entry = false ->
    matches query entry = true ->
    stat h p = Some stats ->
    In (fileItem h p entry stats)
       (walkRec h query includeHidden excludePatterns fuel dirPath depth).
Proof.
  induction 1 as [dir entries entry Hdir Hin
                 |dir entries sub ancestors p entry Hdir Hin Hisdir Hloc IH];
    intros fuel depth stats Hfuel Hdepth Hpass Hskip Hmatch Hstat;
    (destruct fuel as [|fuel]; [simpl in Hdepth; lia|]);
    simpl in Hdepth; simpl;
    (replace (Nat.ltb 5 depth) with false
       by (symmetry; apply Nat.ltb_ge; lia));
    rewrite Hdir; apply in_flat_map.
  - exists entry. split; [exact Hin|].
    unfold visit. rewrite Hskip, Hmatch, Hstat.
    apply in_or_app. left. now left.
  - simpl in Hpass. apply andb_true_iff in Hpass as [Hsub Hpass].
    unfold passable in Hsub. apply andb_true_iff in Hsub as [Hns Hdesc].
    apply negb_true_iff in Hns.
    exists sub. split; [exact Hin|].
    unfold visit. rewrite Hns, Hdesc.
    apply in_or_app. right.
    apply IH; auto; lia.
Qed.

End SearchFacts.

Section SearchResults.
Import Js FileSearch SearchSpec.

Lemma searchFileSystem_firstn (h : Host) (rawQuery : string)
    (searchPaths : list string) (maxResults : Z) (includeHidden : bool)
    (excludePatterns : list string) :
  searchFileSystem h rawQuery searchPaths maxResults includeHidden
    excludePatterns
  = firstn (Z.to_nat maxResults)
      (flat_map
         (fun root =>
            walk h (toLowerCase rawQuery) includeHidden excludePatterns root 0)
         searchPaths).
Proof.
  unfold searchFileSystem. rewrite forSearchPaths_capped.
  unfold capped, slice0. simpl. rewrite Z.sub_0_r.
  destruct (maxResults <? 0)%Z eqn:Hneg.
  - apply Z.ltb_lt in Hneg.
    replace (Z.to_nat maxResults) with 0 by lia. simpl.
    now rewrite firstn_nil.
  - rewrite firstn_firstn. now rewrite Nat.min_id.
Qed.

Lemma search_sound (h : Host) (rawQuery : string)
    (searchPaths : list string) (maxResults : Z) (includeHidden : bool)
    (excludePatterns : list string) (r : FileItem) :
  In r (searchFileSystem h rawQuery searchPaths maxResults includeHidden
          excludePatterns) ->
  exists root ancestors entry stats,
    In root searchPaths
    /\ located h root ancestors (path r) entry
    /\ stat h (path r) = Some stats
    /\ r = fileItem h (path r) entry stats
    /\ List.length ancestors <= 5
    /\ forallb (passable includeHidden excludePatterns) ancestors = true
    /\ skipped includeHidden excludePatterns entry = false
    /\ matches (toLowerCase rawQuery) entry = true.
Proof.
  rewrite searchFileSystem_firstn. intros Hin.
  apply In_firstn, in_flat_map in Hin as (root & Hroot & Hin).
  apply walkRec_sound in Hin as (ancestors & entry & stats & H).
  exists root, ancestors, entry, stats. tauto.
Qed.

Lemma search_complete (h : Host) (rawQuery : string)
    (searchPaths : list string) (maxResults : Z) (includeHidden : bool)
    (excludePatterns : list string)
    (root : string) (ancestors : list Dirent) (p : string) (entry : Dirent)
    (stats : Stats) :
  In root searchPaths ->
  located h root ancestors p entry ->
  List.length ancestors <= 5 ->
  forallb (passable includeHidden excludePatterns) ancestors = true ->
  skipped includeHidden excludePatterns entry = false ->
  matches (toLowerCase rawQuery) entry = true ->
  stat h p = Some stats ->
  (Z.of_nat
     (List.length
        (searchFileSystem h rawQuery searchPaths maxResults includeHidden
           excludePatterns)) < maxResults)%Z ->
  In (fileItem h p entry stats)
     (searchFileSystem h rawQuery searchPaths maxResults includeHidden
        excludePatterns).
Proof.
  rewrite searchFileSystem_firstn.
  intros Hroot Hloc Hdepth Hpass Hskip Hmatch Hstat Hroom.
  rewrite length_firstn in Hroom.
  rewrite firstn_all2 by lia.
  apply in_flat_map. exists root. split; [exact Hroot|].
  unfold walk. eapply walkRec_complete; eauto.
Qed.

(** A host that differs only by listing some unreadable directories as
    empty yields the same traversal. *)
Lemma walkRec_unreadable_ext (h h' : Host) (query : string)
    (includeHidden : bool) (excludePatterns : list string) :
  (forall a b, join h' a b = join h a b) ->
  (forall p, extname h' p = extname h p) ->
  (forall p, stat h' p = stat h p) ->
  (forall p, readdir h' p = readdir h p
             \/ (readdir h p = None /\ readdir h' p = Some [])) ->
  forall fuel dirPath depth,
    walkRec h' query includeHidden excludePatterns fuel dirPath depth
    = walkRec h query includeHidden excludePatterns fuel dirPath depth.
Proof.
  intros Hjoin Hext Hstat Hread.
  induction fuel as [|fuel IH]; intros dirPath depth; simpl; auto.
  destruct (Nat.ltb 5 depth); auto.
  destruct (Hread dirPath) as [->|[-> ->]]; [|reflexivity].
  destruct (readdir h dirPath) as [entries|]; auto.
  apply flat_map_ext. intros entry. unfold visit.
  rewrite Hjoin, Hstat, IH. unfold fileItem. now rewrite Hext.
Qed.

Lemma walk_unreadable (h : Host) (query : string) (includeHidden : bool)
    (excludePatterns : list string) (dir : string) (depth : nat) :
  readdir h dir = None ->
  walk h query includeHidden excludePatterns dir depth = [].
Proof.
  intros Hdir. unfold walk.
  destruct (6 - depth); simpl; auto.
  destruct (Nat.ltb 5 depth); auto. now rewrite Hdir.
Qed.

(** The accelerated search catches every failure itself: it never throws,
    and answers the empty list when the command fails. *)
Lemma searchWithEverything_never_throws (h : Host) (query : string)
    (maxResults : Z) :
  exists found, searchWithEverything h query maxResults = Ok found.
Proof.
  unfold searchWithEverything.
  destruct (runWindowsCommand h _); eauto.
Qed.

Lemma searchWithEverything_failure (h : Host) (query : string)
    (maxResults : Z) :
  (forall command, exists error, execAsync h command = Throw error) ->
  searchWithEverything h query maxResults = Ok [].
Proof.
  intros Hfail. unfold searchWithEverything, runWindowsCommand.
  destruct (Hfail ("chcp 65001 > nul && "
                   ++ ("es.exe -n " ++ showInt maxResults
                       ++ " -size -date-modified "
                       ++ charAt DQUOTE ++ query ++ charAt DQUOTE))%string)
    as [error ->].
  reflexivity.
Qed.

(** With hidden entries not included, the recursive search returns no
    record whose name starts with a dot, wherever the entry lies. *)
Lemma searchFileSystem_excludes_hidden (h : Host) (rawQuery : string)
    (searchPaths : list string) (maxResults : Z)
    (excludePatterns : list string) (r : FileItem) :
  In r (searchFileSystem h rawQuery searchPaths maxResults false
          excludePatterns) ->
  startsWith (name r) (charAt DOT) = false /\ isHidden r = false.
Proof.
  intros Hin.
  apply search_sound in Hin
    as (root & ancestors & entry & stats & _ & _ & _ & Hr & _ & _ & Hskip & _).
  rewrite Hr. simpl. unfold skipped in Hskip.
  apply orb_false_iff in Hskip as [Hhid _].
  rewrite andb_true_r in Hhid. auto.
Qed.

End SearchResults.

Section SearchClaims.
Import Js FileSearch SearchSpec.

(** Builds the location of an entry on a concrete host. *)
Ltac locate :=
  repeat (eapply located_below; [reflexivity | simpl; tauto | reflexivity | ]);
  match goal with
  | |- located ?h ?dir [] _ ?entry =>
      let listing := eval vm_compute in (readdir h dir) in
      match listing with
      | Some ?entries =>
          refine (located_here h dir entries entry eq_refl _); simpl; tauto
      end
  end.

(** C1, as written, fails: on the chain of directories a/b/c/d/e below the
    root, the file that lies in e, six levels below the root, is returned. *)
Lemma search_returns_depth_six_match :
  searchFileSystem Sample.deepHost "hit" [Sample.root] 100 false []
  = [ {| path := Sample.under Sample.root ["a"; "b"; "c"; "d"; "e"; "hit.txt"];
         name := "hit.txt";
         size := 22;
         modified := DateAt 0;
         type := file;
         extension := Some ".txt";
         isHidden := false |} ]
  /\ ~ (forall r : FileItem,
          In r (searchFileSystem Sample.deepHost "hit" [Sample.root] 100
                  false []) ->
          forall ancestors entry,
            located Sample.deepHost Sample.root ancestors (path r) entry ->
            depthOf ancestors <= 5).
Proof.
  split; [vm_compute; reflexivity|].
  intros H.
  specialize (H (fileItem Sample.deepHost
                   (Sample.under Sample.root
                      ["a"; "b"; "c"; "d"; "e"; "hit.txt"])
                   (Sample.fileEntry "hit.txt")
                   {| st_size := 22; st_mtime := DateAt 0;
                      st_isDirectory := false |})).
  assert (Hin : In (fileItem Sample.deepHost
                      (Sample.under Sample.root
                         ["a"; "b"; "c"; "d"; "e"; "hit.txt"])
                      (Sample.fileEntry "hit.txt")
                      {| st_size := 22; st_mtime := DateAt 0;
                         st_isDirectory := false |})
                   (searchFileSystem Sample.deepHost "hit" [Sample.root] 100
                      false [])).
  { vm_compute. auto. }
  specialize (H Hin
                [Sample.dirEntry "a"; Sample.dirEntry "b"; Sample.dirEntry "c";
                 Sample.dirEntry "d"; Sample.dirEntry "e"]
                (Sample.fileEntry "hit.txt")).
  assert (Hloc :
    located Sample.deepHost Sample.root
      [Sample.dirEntry "a"; Sample.dirEntry "b"; Sample.dirEntry "c";
       Sample.dirEntry "d"; Sample.dirEntry "e"]
      (Sample.under Sample.root ["a"; "b"; "c"; "d"; "e"; "hit.txt"])
      (Sample.fileEntry "hit.txt")) by locate.
  specialize (H Hloc). unfold depthOf in H. simpl in H. lia.
Qed.

(** C1, amended: the search lists the directories at depth 0 to 5 below a
    root (the root being at depth 0), so every record it returns comes from
    an entry at depth 6 at most, and none from depth 7 or more; and an entry
    at depth 6 at most is returned when it matches the query, is not
    skipped, can be read through directories that the search passes, and
    the result cap is not reached. *)
Theorem search_depth_ceiling (h : Host) (query : string)
    (searchPaths : list string) (maxResults : Z) (includeHidden : bool)
    (excludePatterns : list string) :
  (forall r : FileItem,
      In r (searchFileSystem h query searchPaths maxResults includeHidden
              excludePatterns) ->
      exists root ancestors entry,
        In root searchPaths
        /\ located h root ancestors (path r) entry
        /\ name r = ent_name entry
        /\ depthOf ancestors <= 6)
  /\ (forall root ancestors p entry stats,
        In root searchPaths ->
        located h root ancestors p entry ->
        depthOf ancestors <= 6 ->
        forallb (passable includeHidden excludePatterns) ancestors = true ->
        skipped includeHidden excludePatterns entry = false ->
        matches (toLowerCase query) entry = true ->
        stat h p = Some stats ->
        (Z.of_nat
           (List.length
              (searchFileSystem h query searchPaths maxResults includeHidden
                 excludePatterns)) < maxResults)%Z ->
        In (fileItem h p entry stats)
           (searchFileSystem h query searchPaths maxResults includeHidden
              excludePatterns)).
Proof.
  split.
  - intros r Hin.
    apply search_sound in Hin
      as (root & ancestors & entry & stats & Hroot & Hloc & _ & Hr & Hd & _).
    exists root, ancestors, entry. repeat split; auto.
    + rewrite Hr. reflexivity.
    + unfold depthOf. lia.
  - intros root ancestors p entry stats Hroot Hloc Hd Hpass Hskip Hmatch
      Hstat Hroom.
    apply (search_complete h query searchPaths maxResults includeHidden
             excludePatterns root ancestors); auto.
    unfold depthOf in Hd. lia.
Qed.

Lemma search_depth_ceiling_witness :
  In (fileItem Sample.deepHost
        (Sample.under Sample.root ["a"; "b"; "c"; "d"; "e"; "hit.txt"])
        (Sample.fileEntry "hit.txt")
        {| st_size := 22; st_mtime := DateAt 0; st_isDirectory := false |})
     (searchFileSystem Sample.deepHost "hit" [Sample.root] 100 false [])
  /\ exists root ancestors entry,
       In root [Sample.root]
       /\ located Sample.deepHost root ancestors
            (Sample.under Sample.root ["a"; "b"; "c"; "d"; "e"; "hit.txt"])
            entry
       /\ "hit.txt" = ent_name entry
       /\ depthOf ancestors <= 6.
Proof.
  assert (Hin :
    In (fileItem Sample.deepHost
          (Sample.under Sample.root ["a"; "b"; "c"; "d"; "e"; "hit.txt"])
          (Sample.fileEntry "hit.txt")
          {| st_size := 22; st_mtime := DateAt 0; st_isDirectory := false |})
       (searchFileSystem Sample.deepHost "hit" [Sample.root] 100 false [])).
  { apply (proj2 (search_depth_ceiling Sample.deepHost "hit" [Sample.root]
                    100 false [])
             Sample.root
             [Sample.dirEntry "a"; Sample.dirEntry "b"; Sample.dirEntry "c";
              Sample.dirEntry "d"; Sample.dirEntry "e"]).
    - simpl. tauto.
    - locate.
    - unfold depthOf. simpl. lia.
    - reflexivity.
    - reflexivity.
    - reflexivity.
    - reflexivity.
    - vm_compute. reflexivity. }
  split; [exact Hin|].
  exact (proj1 (search_depth_ceiling Sample.deepHost "hit" [Sample.root] 100
                  false []) _ Hin).
Defined.

(** C3: for a maximum N that is a natural number, the recursive search
    returns at most N records, whatever the roots hold. *)
Theorem search_returns_at_most_maxResults (h : Host) (query : string)
    (searchPaths : list string) (N : Z) (includeHidden : bool)
    (excludePatterns : list string) :
  (0 <= N)%Z ->
  (Z.of_nat
     (List.length
        (searchFileSystem h query searchPaths N includeHidden
           excludePatterns)) <= N)%Z.
Proof.
  intros HN. rewrite searchFileSystem_firstn.
  pose proof (firstn_le_length (Z.to_nat N)
                (flat_map
                   (fun root =>
                      walk h (toLowerCase query) includeHidden excludePatterns
                        root 0) searchPaths)).
  lia.
Qed.

Lemma search_returns_at_most_maxResults_witness :
  (Z.of_nat
     (List.length
        (searchFileSystem Sample.wideHost "HIT" [Sample.root; Sample.root2] 2
           true [])) <= 2)%Z.
Proof.
  apply (search_returns_at_most_maxResults Sample.wideHost "HIT"
           [Sample.root; Sample.root2] 2 true []).
  lia.
Defined.

(** C9: a directory that cannot be read counts as an empty directory and
    nothing more: the search returns what it would return if the directory
    were empty; a root that cannot be read can be left out of the roots
    without changing the result; and every matching entry that is reached
    through readable directories is returned, as long as the result cap is
    not reached. *)
Theorem unreadable_directory_is_contained (h : Host) (dir : string)
    (query : string) (searchPaths : list string) (maxResults : Z)
    (includeHidden : bool) (excludePatterns : list string) :
  readdir h dir = None ->
  searchFileSystem h query searchPaths maxResults includeHidden
    excludePatterns
  = searchFileSystem (withListing h dir (Some [])) query searchPaths
      maxResults includeHidden excludePatterns
  /\ (forall before after,
        searchPaths = before ++ dir :: after ->
        searchFileSystem h query searchPaths maxResults includeHidden
          excludePatterns
        = searchFileSystem h query (before ++ after) maxResults includeHidden
            excludePatterns)
  /\ (forall root ancestors p entry stats,
        In root searchPaths ->
        located h root ancestors p entry ->
        List.length ancestors <= 5 ->
        forallb (passable includeHidden excludePatterns) ancestors = true ->
        skipped includeHidden excludePatterns entry = false ->
        matches (toLowerCase query) entry = true ->
        stat h p = Some stats ->
        (Z.of_nat
           (List.length
              (searchFileSystem h query searchPaths maxResults includeHidden
                 excludePatterns)) < maxResults)%Z ->
        In (fileItem h p entry stats)
           (searchFileSystem h query searchPaths maxResults includeHidden
              excludePatterns)).
Proof.
  intros Hdir. split; [|split].
  - rewrite !searchFileSystem_firstn. f_equal.
    apply flat_map_ext. intros root. unfold walk. symmetry.
    apply walkRec_unreadable_ext; try reflexivity.
    intros p. simpl. destruct (String.eqb p dir) eqn:Hp; [|now left].
    apply String.eqb_eq in Hp. subst p. right. auto.
  - intros before after ->. rewrite !searchFileSystem_firstn. f_equal.
    rewrite !flat_map_app. simpl. now rewrite walk_unreadable.
  - intros root ancestors p entry stats.
    apply search_complete.
Qed.

Lemma unreadable_directory_is_contained_witness :
  searchFileSystem Sample.wideHost "hit" [Sample.root; Sample.root2] 100
    false []
  = searchFileSystem
      (withListing Sample.wideHost (Sample.under Sample.root ["locked"])
         (Some []))
      "hit" [Sample.root; Sample.root2] 100 false [].
Proof.
  exact (proj1 (unreadable_directory_is_contained Sample.wideHost
                  (Sample.under Sample.root ["locked"]) "hit"
                  [Sample.root; Sample.root2] 100 false [] eq_refl)).
Defined.

(** C10: whatever [includeHidden] is, every record that the recursive
    search returns comes from an entry reached from a root through
    directories none of which is hidden: the search never lists a hidden
    directory below a root. With [includeHidden] set, the hidden directory
    itself is returned when it matches. *)
Theorem search_never_enters_hidden_directory (h : Host) (query : string)
    (searchPaths : list string) (maxResults : Z) (includeHidden : bool)
    (excludePatterns : list string) :
  (forall r : FileItem,
      In r (searchFileSystem h query searchPaths maxResults includeHidden
              excludePatterns) ->
      exists root ancestors entry,
        In root searchPaths
        /\ located h root ancestors (path r) entry
        /\ name r = ent_name entry
        /\ forallb
             (fun sub => negb (startsWith (ent_name sub) (charAt DOT)))
             ancestors = true)
  /\ (forall root ancestors p entry stats,
        includeHidden = true ->
        startsWith (ent_name entry) (charAt DOT) = true ->
        ent_isDirectory entry = true ->
        In root searchPaths ->
        located h root ancestors p entry ->
        List.length ancestors <= 5 ->
        forallb (passable includeHidden excludePatterns) ancestors = true ->
        existsb (fun pattern => includes (ent_name entry) pattern)
          excludePatterns = false ->
        matches (toLowerCase query) entry = true ->
        stat h p = Some stats ->
        (Z.of_nat
           (List.length
              (searchFileSystem h query searchPaths maxResults includeHidden
                 excludePatterns)) < maxResults)%Z ->
        In (fileItem h p entry stats)
           (searchFileSystem h query searchPaths maxResults includeHidden
              excludePatterns)
        /\ isHidden (fileItem h p entry stats) = true
        /\ type (fileItem h p entry stats) = directory).
Proof.
  split.
  - intros r Hin.
    apply search_sound in Hin
      as (root & ancestors & entry & stats & Hroot & Hloc & _ & Hr & _ & Hp & _).
    exists root, ancestors, entry. repeat split; auto.
    + rewrite Hr. reflexivity.
    + clear - Hp. induction ancestors as [|sub ancestors IH]; simpl in *; auto.
      apply andb_true_iff in Hp as [Hsub Hp].
      unfold passable, descends in Hsub.
      apply andb_true_iff in Hsub as [_ Hsub].
      apply andb_true_iff in Hsub as [_ Hsub].
      rewrite Hsub. auto.
  - intros root ancestors p entry stats Hincl Hhid Hisdir Hroot Hloc Hd Hpass
      Hex Hmatch Hstat Hroom.
    repeat split.
    + apply (search_complete h query searchPaths maxResults includeHidden
               excludePatterns root ancestors); auto.
      unfold skipped. now rewrite Hincl, Hex, andb_false_r.
    + exact Hhid.
    + simpl. now rewrite Hisdir.
Qed.

Lemma search_never_enters_hidden_directory_witness :
  (In (fileItem Sample.wideHost (Sample.under Sample.root [".hithub"])
         (Sample.dirEntry ".hithub")
         {| st_size := 12; st_mtime := DateAt 0; st_isDirectory := true |})
      (searchFileSystem Sample.wideHost "hit" [Sample.root; Sample.root2] 100
         true [])
   /\ exists root ancestors entry,
        In root [Sample.root; Sample.root2]
        /\ located Sample.wideHost root ancestors
             (Sample.under Sample.root [".hithub"]) entry
        /\ ".hithub" = ent_name entry
        /\ forallb
             (fun sub => negb (startsWith (ent_name sub) (charAt DOT)))
             ancestors = true)
  /\ map path
       (searchFileSystem Sample.wideHost "hit" [Sample.root; Sample.root2] 100
          true [])
     = [ Sample.under Sample.root ["hit1.txt"];
         Sample.under Sample.root [".hit2"];
         Sample.under Sample.root [".hithub"];
         Sample.under Sample.root ["hitdir"];
         Sample.under Sample.root ["hitdir"; ".hit4"];
         Sample.under Sample.root ["hitdir"; "hit5.TXT"];
         Sample.under Sample.root2 ["Hit6.txt"] ].
Proof.
  split; [|vm_compute; reflexivity].
  assert (Hin :
    In (fileItem Sample.wideHost (Sample.under Sample.root [".hithub"])
          (Sample.dirEntry ".hithub")
          {| st_size := 12; st_mtime := DateAt 0; st_isDirectory := true |})
       (searchFileSystem Sample.wideHost "hit" [Sample.root; Sample.root2]
          100 true [])).
  { apply (proj2 (search_never_enters_hidden_directory Sample.wideHost "hit"
                    [Sample.root; Sample.root2] 100 true [])
             Sample.root [] (Sample.under Sample.root [".hithub"])
             (Sample.dirEntry ".hithub")
             {| st_size := 12; st_mtime := DateAt 0;
                st_isDirectory := true |});
      try reflexivity.
    - simpl. tauto.
    - locate.
    - simpl. lia. }
  split; [exact Hin|].
  exact (proj1 (search_never_enters_hidden_directory Sample.wideHost "hit"
                  [Sample.root; Sample.root2] 100 true []) _ Hin).
Defined.

(** When the command of the accelerated search fails, [searchFiles] answers
    no record at all: the failure is caught inside [searchWithEverything],
    so the handler that would run the recursive search never does. *)
Lemma searchFiles_everything_failure (h : Host) (preferences : Preferences)
    (startTime endTime : Z) (query : string) :
  useEverything preferences = true ->
  truthy (trim query) = true ->
  (forall command, exists error, execAsync h command = Throw error) ->
  files (searchFiles h preferences startTime endTime query) = [].
Proof.
  intros Huse Hquery Hfail. unfold searchFiles.
  rewrite Hquery, Huse. simpl.
  now rewrite searchWithEverything_failure.
Qed.

(** C2, on a failing input: Everything is enabled and its command cannot be
    run; the search answers no record, while the recursive search over the
    same roots finds four. *)
Theorem everything_failure_is_not_recovered :
  files (searchFiles Sample.wideHost Sample.preferences 10 25 "hit") = []
  /\ map path
       (searchFileSystem Sample.wideHost "hit"
          (searchPathsOf Sample.preferences)
          (maxResultsOf Sample.wideHost Sample.preferences)
          (includeHidden Sample.preferences)
          (excludePatternsOf Sample.preferences))
     = [ Sample.under Sample.root ["hit1.txt"];
         Sample.under Sample.root ["hitdir"];
         Sample.under Sample.root ["hitdir"; "hit5.TXT"];
         Sample.under Sample.root2 ["Hit6.txt"] ].
Proof. split; vm_compute; reflexivity. Qed.

(** C4, on a failing input: hidden files are not to be included, Everything
    is enabled and reports a file whose name starts with a dot; the search
    returns the record of that file. *)
Theorem everything_returns_hidden_record :
  includeHidden Sample.preferences = false
  /\ files (searchFiles Sample.everythingHost Sample.preferences 10 25 "hit")
     = [ {| path := Sample.under Sample.root [".hit2"];
            name := ".hit2";
            size := 120;
            modified := DateOf "2024-01-01";
            type := file;
            extension := Some EmptyString;
            isHidden := true |} ]
  /\ startsWith ".hit2" (charAt DOT) = true.
Proof. repeat split; vm_compute; reflexivity. Qed.

End SearchClaims.

(** * Further properties of the record parser and of the process list *)

Section TrimFacts.
Import Js ParserSpec.

Lemma append_empty_r (s : string) : (s ++ EmptyString)%string = s.
Proof. induction s; simpl; congruence. Qed.

Lemma append_assoc (a b c : string) :
  ((a ++ b) ++ c)%string = (a ++ (b ++ c))%string.
Proof. induction a; simpl; congruence. Qed.

Lemma trimEnd_idempotent (s : string) : trimEnd (trimEnd s) = trimEnd s.
Proof.
  induction s as [|c r IH]; simpl; auto.
  destruct (trimEnd r) as [|a b] eqn:Hr.
  - destruct (isWhitespace c) eqn:Hc; simpl; auto. now rewrite Hc.
  - change (trimEnd (String c (String a b))) with
      (match trimEnd (String a b) with
       | EmptyString => if isWhitespace c then EmptyString else charAt c
       | String _ _ as r' => String c r'
       end).
    rewrite IH. reflexivity.
Qed.

Lemma trimStart_head (c : ascii) (r : string) :
  isWhitespace c = false -> trimStart (String c r) = String c r.
Proof. intros H. simpl. now rewrite H. Qed.

Lemma trimEnd_head (c : ascii) (r : string) :
  isWhitespace c = false -> exists r', trimEnd (String c r) = String c r'.
Proof.
  intros H. simpl. destruct (trimEnd r) as [|a b].
  - rewrite H. unfold charAt. eauto.
  - eauto.
Qed.

Lemma trimStart_shape (s : string) :
  trimStart s = EmptyString
  \/ exists c r, trimStart s = String c r /\ isWhitespace c = false.
Proof.
  induction s as [|c r IH]; simpl; auto.
  destruct (isWhitespace c) eqn:Hc; auto. right. eauto.
Qed.

Lemma trim_idempotent (s : string) : trim (trim s) = trim s.
Proof.
  unfold trim.
  destruct (trimStart_shape s) as [->|(c & r & -> & Hc)]; [reflexivity|].
  destruct (trimEnd_head c r Hc) as [r' Hr']. rewrite Hr'.
  rewrite (trimStart_head c r' Hc). rewrite <- Hr'.
  apply trimEnd_idempotent.
Qed.

Lemma occurrences_trimStart (c : ascii) (s : string) :
  occurrences c (trimStart s) <= occurrences c s.
Proof.
  induction s as [|a r IH]; simpl; auto.
  destruct (isWhitespace a); simpl; lia.
Qed.

Lemma occurrences_trimEnd (c : ascii) (s : string) :
  occurrences c (trimEnd s) <= occurrences c s.
Proof.
  induction s as [|a r IH]; simpl; auto.
  destruct (trimEnd r) as [|x y].
  - destruct (isWhitespace a); simpl in *; lia.
  - simpl in *. lia.
Qed.

Lemma occurrences_trim (c : ascii) (s : string) :
  occurrences c (trim s) <= occurrences c s.
Proof.
  unfold trim. etransitivity; [apply occurrences_trimEnd|].
  apply occurrences_trimStart.
Qed.

Lemma trimStart_blank (s : string) :
  forallb isWhitespace (list_ascii_of_string s) = true ->
  trimStart s = EmptyString.
Proof.
  induction s as [|c r IH]; simpl; auto.
  intros H. apply andb_true_iff in H as [-> H]. auto.
Qed.

Lemma lastChar_append (a : string) (c : ascii) (r : string) :
  lastChar (a ++ String c r)%string = lastChar (String c r).
Proof.
  induction a as [|x a IH]; auto.
  change (lastChar (String x (a ++ String c r)%string)
          = lastChar (String c r)).
  destruct a; simpl in *; auto.
Qed.

Lemma trimEnd_lastChar (s : string) (c : ascii) :
  lastChar s = Some c -> isWhitespace c = false -> trimEnd s = s.
Proof.
  induction s as [|a r IH]; intros Hlast Hc; [discriminate|].
  destruct r as [|b r'].
  - simpl in *. injection Hlast as ->. now rewrite Hc.
  - change (trimEnd (String a (String b r'))) with
      (match trimEnd (String b r') with
       | EmptyString => if isWhitespace a then EmptyString else charAt a
       | String _ _ as t => String a t
       end).
    rewrite IH; auto.
Qed.

(** A string that neither starts nor ends with white space is its own
    trimming. *)
Lemma trim_fixed (s : string) (c d : ascii) :
  firstChar s = Some c -> isWhitespace c = false ->
  lastChar s = Some d -> isWhitespace d = false ->
  trim s = s.
Proof.
  intros Hf Hc Hl Hd. unfold trim.
  destruct s as [|a r]; [discriminate|]. simpl in Hf. injection Hf as ->.
  rewrite (trimStart_head c r Hc). eapply trimEnd_lastChar; eauto.
Qed.

End TrimFacts.

Section SplitFacts.
Import Js ParserSpec.

Lemma occurrences_zero_head (c a : ascii) (r : string) :
  occurrences c (String a r) = 0 ->
  Ascii.eqb a c = false /\ occurrences c r = 0.
Proof.
  simpl. destruct (Ascii.eqb a c); [discriminate|]. auto.
Qed.

(** A string without line feed is a single line. *)
Lemma splitLines_single (line : string) :
  occurrences LF line = 0 -> splitLines line = [line].
Proof.
  induction line as [|c l IH]; intros H; [reflexivity|].
  apply occurrences_zero_head in H as [Hc Hl].
  cbn [splitLines]. rewrite Hc, (IH Hl).
  destruct (Ascii.eqb c CR); [|reflexivity].
  destruct l as [|c2 r2]; [reflexivity|].
  apply occurrences_zero_head in Hl as [-> _]. reflexivity.
Qed.

(** A line that holds no line feed and does not end with a carriage return
    is split off at the line ending that follows it, be it LF or CR LF. *)
Lemma splitLines_line (eol line rest : string) :
  eol = charAt LF \/ eol = CRLF ->
  occurrences LF line = 0 ->
  endsWithCR line = false ->
  splitLines (line ++ eol ++ rest)%string = line :: splitLines rest.
Proof.
  intros Heol. induction line as [|c l IH]; intros Hlf Hcr.
  - destruct Heol as [->| ->]; reflexivity.
  - apply occurrences_zero_head in Hlf as [Hc Hl].
    change (String c l ++ eol ++ rest)%string
      with (String c (l ++ eol ++ rest)%string).
    cbn [splitLines]. rewrite Hc.
    assert (Hl' : endsWithCR l = false).
    { destruct l; [reflexivity|exact Hcr]. }
    rewrite (IH Hl Hl').
    destruct (Ascii.eqb c CR) eqn:HcCR; [|reflexivity].
    destruct l as [|c2 r2].
    + simpl in Hcr. congruence.
    + apply occurrences_zero_head in Hl as [Hc2 _].
      change (String c2 r2 ++ eol ++ rest)%string
        with (String c2 (r2 ++ eol ++ rest)%string).
      cbv iota. now rewrite Hc2.
Qed.

Lemma splitLines_joinWith (eol : string) (lines : list string) :
  eol = charAt LF \/ eol = CRLF ->
  lines <> [] ->
  Forall (fun line => occurrences LF line = 0 /\ endsWithCR line = false)
    lines ->
  splitLines (joinWith eol lines) = lines.
Proof.
  intros Heol Hne Hall. induction Hall as [|line rest [Hlf Hcr] Hrest IH].
  - contradiction.
  - destruct rest as [|line2 rest].
    + simpl. now apply splitLines_single.
    + change (joinWith eol (line :: line2 :: rest))
        with (line ++ eol ++ joinWith eol (line2 :: rest))%string.
      rewrite splitLines_line by assumption.
      f_equal. apply IH. discriminate.
Qed.

Lemma lastChar_app (a b : string) (c : ascii) :
  lastChar b = Some c -> lastChar (a ++ b)%string = Some c.
Proof.
  intros H. destruct b as [|x y]; [discriminate|].
  now rewrite lastChar_append.
Qed.

Lemma endsWithCR_lastChar (s : string) (c : ascii) :
  lastChar s = Some c -> Ascii.eqb c CR = false -> endsWithCR s = false.
Proof.
  induction s as [|a r IH]; intros Hl Hc; [reflexivity|].
  destruct r as [|b r'].
  - simpl in *. injection Hl as ->. exact Hc.
  - apply IH; assumption.
Qed.

End SplitFacts.

Section ParserRoundTrip.
Import Js ProcessManager ParserSpec.

Lemma plainField_spec (field : string) :
  plainField field = true ->
  trim field = field
  /\ occurrences DQUOTE field = 0
  /\ occurrences LF field = 0.
Proof.
  unfold plainField. intros H.
  apply andb_true_iff in H as [H Hlf].
  apply andb_true_iff in H as [Htrim Hq].
  apply String.eqb_eq in Htrim. apply Nat.eqb_eq in Hq, Hlf. auto.
Qed.

Lemma scanFrom_quoteField (st : Scan) (field tail : string) :
  inQuotes st = false ->
  occurrences DQUOTE field = 0 ->
  scanFrom st (quoteField field ++ tail)%string
  = scanFrom {| parts := parts st;
                current := (current st ++ field)%string;
                inQuotes := false |} tail.
Proof.
  intros Hq Hfield. unfold quoteField, charAt.
  change (scanFrom st
            (String DQUOTE ((field ++ String DQUOTE EmptyString) ++ tail))
          = scanFrom
              {| parts := parts st; current := (current st ++ field)%string;
                 inQuotes := false |} tail).
  rewrite append_assoc. cbn [scanFrom]. rewrite scanFrom_app.
  rewrite scanChar_quote, Hq.
  rewrite (scanFrom_quoted_run field
             {| parts := parts st; current := current st;
                inQuotes := negb false |} eq_refl Hfield).
  reflexivity.
Qed.

Lemma scan_encodeRow (row : list string) :
  row <> [] ->
  forallb plainField row = true ->
  forall st,
    inQuotes st = false ->
    current st = EmptyString ->
    parts (scanFrom st (encodeRow row))
      ++ [trim (current (scanFrom st (encodeRow row)))]
    = parts st ++ row.
Proof.
  induction row as [|field rest IH]; intros Hne Hplain st Hq Hcur;
    [contradiction|].
  simpl in Hplain. apply andb_true_iff in Hplain as [Hfield Hrest].
  apply plainField_spec in Hfield as (Htrim & Hquote & _).
  destruct rest as [|field2 rest].
  - change (encodeRow [field]) with (quoteField field).
    rewrite <- (append_empty_r (quoteField field)).
    rewrite scanFrom_quoteField by auto. simpl.
    rewrite Hcur. simpl. now rewrite Htrim.
  - change (encodeRow (field :: field2 :: rest))
      with (quoteField field
            ++ String COMMA (encodeRow (field2 :: rest)))%string.
    rewrite scanFrom_quoteField by auto. cbn [scanFrom].
    unfold scanChar at 1 2. simpl.
    rewrite IH; auto; try discriminate. simpl.
    rewrite Hcur. simpl. rewrite Htrim, <- app_assoc. reflexivity.
Qed.

Lemma parseLine_encodeRow (row : list string) :
  row <> [] ->
  forallb plainField row = true ->
  parseLine (encodeRow row) = row.
Proof.
  intros Hne Hplain. unfold parseLine.
  now rewrite (scan_encodeRow row Hne Hplain scanStart).
Qed.

Lemma occurrences_quoteField (c : ascii) (field : string) :
  Ascii.eqb DQUOTE c = false ->
  occurrences c (quoteField field) = occurrences c field.
Proof.
  intros Hc. unfold quoteField, charAt.
  rewrite !occurrences_app. cbn [occurrences]. rewrite Hc. lia.
Qed.

Lemma encodeRow_line (row : list string) :
  row <> [] ->
  forallb plainField row = true ->
  occurrences LF (encodeRow row) = 0
  /\ firstChar (encodeRow row) = Some DQUOTE
  /\ lastChar (encodeRow row) = Some DQUOTE.
Proof.
  induction row as [|field rest IH]; intros Hne Hplain; [contradiction|].
  simpl in Hplain. apply andb_true_iff in Hplain as [Hfield Hrest].
  apply plainField_spec in Hfield as (_ & _ & Hlf).
  assert (Hlast : lastChar (quoteField field) = Some DQUOTE).
  { unfold quoteField. apply lastChar_app, lastChar_app. reflexivity. }
  destruct rest as [|field2 rest].
  - change (encodeRow [field]) with (quoteField field).
    rewrite occurrences_quoteField by reflexivity. auto.
  - change (encodeRow (field :: field2 :: rest))
      with (quoteField field
            ++ String COMMA (encodeRow (field2 :: rest)))%string.
    destruct IH as (IHlf & _ & IHlast); auto; try discriminate.
    repeat split.
    + rewrite occurrences_app, occurrences_quoteField by reflexivity.
      simpl. lia.
    + apply (lastChar_app _ (String COMMA (encodeRow (field2 :: rest)))).
      apply (lastChar_app (charAt COMMA)). exact IHlast.
Qed.

Lemma plainRow_spec (row : list string) :
  plainRow row = true ->
  row <> [] /\ forallb plainField row = true /\ keepRow row = true.
Proof.
  unfold plainRow, hasField, keepRow. intros H.
  apply andb_true_iff in H as [Hplain Hfirst].
  destruct row as [|field rest]; [discriminate|].
  repeat split; auto. discriminate.
Qed.

Lemma joinWith_ends (eol : string) (lines : list string) :
  lines <> [] ->
  Forall (fun line => firstChar line = Some DQUOTE
                      /\ lastChar line = Some DQUOTE) lines ->
  firstChar (joinWith eol lines) = Some DQUOTE
  /\ lastChar (joinWith eol lines) = Some DQUOTE.
Proof.
  intros Hne Hall. induction Hall as [|line rest [Hf Hl] Hrest IH];
    [contradiction|].
  destruct rest as [|line2 rest]; [simpl; auto|].
  change (joinWith eol (line :: line2 :: rest))
    with (line ++ eol ++ joinWith eol (line2 :: rest))%string.
  destruct IH as [_ IHl]; [discriminate|]. split.
  - destruct line; [discriminate|exact Hf].
  - now apply lastChar_app, lastChar_app.
Qed.

End ParserRoundTrip.

Section ParserExtras.
Import Js ProcessManager ParserSpec.

Lemma filter_all {A : Type} (f : A -> bool) (l : list A) :
  forallb f l = true -> filter f l = l.
Proof.
  induction l as [|x l IH]; simpl; auto.
  intros H. apply andb_true_iff in H as [-> H]. now rewrite IH.
Qed.

Lemma map_id_on {A : Type} (f : A -> A) (l : list A) :
  (forall x, In x l -> f x = x) -> map f l = l.
Proof.
  induction l as [|x l IH]; simpl; auto.
  intros H. rewrite H by auto. rewrite IH; auto.
Qed.

Lemma parseWindowsCSV_encodeRows (eol : string)
    (rows : list (list string)) :
  eol = charAt LF \/ eol = CRLF ->
  forallb plainRow rows = true ->
  parseWindowsCSV (encodeRows eol rows) = rows.
Proof.
  intros Heol Hrows.
  destruct rows as [|row0 rows0] eqn:Erows; [reflexivity|].
  rewrite <- Erows in *.
  assert (Hne : rows <> []) by (subst rows; discriminate).
  clear Erows row0 rows0.
  assert (Hall : forall row, In row rows ->
                   row <> [] /\ forallb plainField row = true
                   /\ keepRow row = true).
  { intros row Hin. apply plainRow_spec.
    eapply forallb_forall in Hrows; eauto. }
  assert (Hlines :
    Forall (fun line =>
              occurrences LF line = 0
              /\ firstChar line = Some DQUOTE
              /\ lastChar line = Some DQUOTE) (map encodeRow rows)).
  { apply Forall_forall. intros line Hin.
    apply in_map_iff in Hin as (row & <- & Hin).
    destruct (Hall row Hin) as (Hrne & Hplain & _).
    now apply encodeRow_line. }
  assert (Hmne : map encodeRow rows <> []).
  { destruct rows; [contradiction|discriminate]. }
  destruct (joinWith_ends eol (map encodeRow rows) Hmne) as [Hfirst Hlast].
  { eapply Forall_impl; [|exact Hlines]. simpl. tauto. }
  unfold parseWindowsCSV, encodeRows.
  rewrite (trim_fixed _ DQUOTE DQUOTE Hfirst eq_refl Hlast eq_refl).
  rewrite splitLines_joinWith; auto.
  - rewrite map_map. rewrite map_id_on.
    + apply filter_all. apply forallb_forall. intros row Hin.
      now destruct (Hall row Hin) as (_ & _ & Hkeep).
    + intros row Hin. destruct (Hall row Hin) as (Hrne & Hplain & _).
      now apply parseLine_encodeRow.
  - eapply Forall_impl; [|exact Hlines]. simpl.
    intros line (Hlf & _ & Hl). split; auto.
    eapply endsWithCR_lastChar; eauto.
Qed.

(** X1: what the listing command prints is read back as it was written:
    rows of quoted fields, separated by commas and ended by LF or by CR LF,
    parse to the very rows, provided no field holds a quote or a line feed
    or has white space around it, and the first field of each row is not
    empty. Commas inside the fields are allowed. *)
Theorem parseWindowsCSV_round_trip (eol : string)
    (rows : list (list string)) :
  eol = charAt LF \/ eol = CRLF ->
  forallb plainRow rows = true ->
  parseWindowsCSV (encodeRows eol rows) = rows.
Proof. apply parseWindowsCSV_encodeRows. Qed.

Lemma parseWindowsCSV_round_trip_witness :
  parseWindowsCSV
    (encodeRows CRLF
       [["a.exe"; "12"; "Console"; "1"; "10,240 K"]; ["b.exe"; "7"]])
  = [["a.exe"; "12"; "Console"; "1"; "10,240 K"]; ["b.exe"; "7"]].
Proof.
  apply (parseWindowsCSV_round_trip CRLF
           [["a.exe"; "12"; "Console"; "1"; "10,240 K"]; ["b.exe"; "7"]]).
  - right. reflexivity.
  - reflexivity.
Defined.

(** X2: an output made of white space only (the empty output included)
    parses to no row at all. *)
Theorem parseWindowsCSV_blank (csvOutput : string) :
  forallb isWhitespace (list_ascii_of_string csvOutput) = true ->
  parseWindowsCSV csvOutput = [].
Proof.
  intros H. unfold parseWindowsCSV, trim.
  rewrite (trimStart_blank _ H). reflexivity.
Qed.

Lemma parseWindowsCSV_blank_witness :
  parseWindowsCSV (String CR (String LF "  ")) = [].
Proof.
  apply (parseWindowsCSV_blank (String CR (String LF "  "))). reflexivity.
Defined.

Lemma splitLines_no_LF (s : string) :
  Forall (fun line => occurrences LF line = 0) (splitLines s).
Proof.
  induction s as [|c r IH]; [repeat constructor|].
  cbn [splitLines].
  destruct (Ascii.eqb c LF) eqn:Hc; [constructor; auto|].
  assert (Hkeep :
    Forall (fun line => occurrences LF line = 0)
      match splitLines r with
      | [] => [charAt c]
      | l :: ls => String c l :: ls
      end).
  { destruct (splitLines r) as [|l ls].
    - constructor; auto. simpl. now rewrite Hc.
    - inversion IH; subst. constructor; auto. simpl. now rewrite Hc. }
  destruct (Ascii.eqb c CR); auto.
  destruct r as [|c2 r2]; auto.
  destruct (Ascii.eqb c2 LF) eqn:Hc2; auto.
  cbn [splitLines] in IH. rewrite Hc2 in IH. exact IH.
Qed.

(** A field is clean when it is trimmed and holds neither a quote nor a
    line feed. *)
Lemma scanFrom_clean (line : string) :
  forall st,
    occurrences LF line = 0 ->
    Forall (fun field => plainField field = true) (parts st) ->
    occurrences DQUOTE (current st) = 0 ->
    occurrences LF (current st) = 0 ->
    Forall (fun field => plainField field = true)
      (parts (scanFrom st line))
    /\ occurrences DQUOTE (current (scanFrom st line)) = 0
    /\ occurrences LF (current (scanFrom st line)) = 0.
Proof.
  induction line as [|c line IH]; intros st Hline Hparts Hq Hlf; [auto|].
  apply occurrences_zero_head in Hline as [Hc Hline].
  cbn [scanFrom]. apply IH; auto; unfold scanChar;
    destruct (Ascii.eqb c DQUOTE) eqn:HcQ; simpl; auto;
    destruct (Ascii.eqb c COMMA && negb (inQuotes st)); simpl; auto.
  - apply Forall_app. split; auto. constructor; auto.
    unfold plainField. rewrite trim_idempotent, String.eqb_refl.
    pose proof (occurrences_trim DQUOTE (current st)).
    pose proof (occurrences_trim LF (current st)).
    replace (occurrences DQUOTE (trim (current st))) with 0 by lia.
    replace (occurrences LF (trim (current st))) with 0 by lia.
    reflexivity.
  - rewrite occurrences_app. simpl. rewrite HcQ. lia.
  - rewrite occurrences_app. simpl. rewrite Hc. lia.
Qed.

(** X3: every row that the parser returns has a first field that is not
    empty, and every field of it is trimmed and holds neither a quote
    character nor a line feed, whatever the input. *)
Theorem parseWindowsCSV_rows_clean (csvOutput : string) :
  Forall
    (fun row =>
       hasField row 0 = true
       /\ Forall
            (fun field =>
               trim field = field
               /\ occurrences DQUOTE field = 0
               /\ occurrences LF field = 0)
            row)
    (parseWindowsCSV csvOutput).
Proof.
  apply Forall_forall. intros row Hin. unfold parseWindowsCSV in Hin.
  apply filter_In in Hin as [Hin Hkeep].
  apply in_map_iff in Hin as (line & <- & Hin).
  split.
  - unfold keepRow in Hkeep. apply andb_true_iff in Hkeep as [_ Hkeep].
    exact Hkeep.
  - pose proof (splitLines_no_LF (trim csvOutput)) as Hlines.
    rewrite Forall_forall in Hlines. specialize (Hlines line Hin).
    destruct (scanFrom_clean line scanStart Hlines) as (Hparts & Hq & Hlf);
      try reflexivity; [constructor|].
    unfold parseLine. apply Forall_app. split.
    + eapply Forall_impl; [|exact Hparts].
      intros field Hf. now apply plainField_spec.
    + constructor; [|constructor]. split; [apply trim_idempotent|].
      pose proof (occurrences_trim DQUOTE
                    (current (scanFrom scanStart line))).
      pose proof (occurrences_trim LF (current (scanFrom scanStart line))).
      lia.
Qed.

Lemma toProcess_rowOf (p : WindowsProcess) :
  status p = Some Running -> toProcess (rowOf p) = p.
Proof.
  destruct p as [n i sn snum mem st]. simpl. intros ->.
  unfold toProcess, fieldOr, rowOf. simpl.
  destruct n, i, sn, snum, mem; reflexivity.
Qed.

(** X4: the process list survives the trip through the listing: when the
    command prints, one per line, the five quoted columns of each process,
    [getRunningProcesses] returns exactly these processes, in order. *)
Theorem getRunningProcesses_round_trip (execAsync : string -> ExecOutcome)
    (eol stderr : string) (processes : list WindowsProcess) :
  eol = charAt LF \/ eol = CRLF ->
  forallb listedProcess processes = true ->
  execAsync tasklistCommand
  = Exited (encodeRows eol (map rowOf processes)) stderr ->
  getRunningProcesses execAsync = Ok processes.
Proof.
  intros Heol Hlisted Hexec.
  assert (Hall : forall p, In p processes ->
                   plainRow (rowOf p) = true /\ truthy (pid p) = true
                   /\ status p = Some Running).
  { intros p Hin. eapply forallb_forall in Hlisted; eauto.
    unfold listedProcess in Hlisted.
    apply andb_true_iff in Hlisted as [Hlisted Hst].
    apply andb_true_iff in Hlisted as [Hrow Hpid].
    repeat split; auto.
    destruct (status p) as [[| |]|]; try discriminate. reflexivity. }
  unfold getRunningProcesses, runWindowsCommand.
  change ("chcp 65001 > nul && " ++ "tasklist /fo csv /nh")%string
    with tasklistCommand.
  rewrite Hexec. f_equal.
  assert (Hparse :
    parseWindowsCSV (trim (encodeRows eol (map rowOf processes)))
    = map rowOf processes).
  { unfold parseWindowsCSV. rewrite trim_idempotent.
    apply parseWindowsCSV_encodeRows; auto.
    apply forallb_forall. intros row Hin.
    apply in_map_iff in Hin as (p & <- & Hin). now apply Hall. }
  rewrite Hparse, map_map, map_id_on.
  - apply filter_all, forallb_forall. intros p Hin.
    destruct (Hall p Hin) as (Hrow & Hpid & _).
    unfold hasNameAndPid. rewrite Hpid, andb_true_r.
    apply plainRow_spec in Hrow as (_ & _ & Hkeep).
    unfold keepRow in Hkeep. simpl in Hkeep. exact Hkeep.
  - intros p Hin. apply toProcess_rowOf. now apply Hall.
Qed.

Lemma getRunningProcesses_round_trip_witness :
  getRunningProcesses
    (fun _ =>
       Exited
         (encodeRows CRLF
            [["a.exe"; "12"; "Console"; "1"; "10,240 K"];
             ["svc.exe"; "4"; "Services"; "0"; "88 K"]])
         EmptyString)
  = Ok [ {| name := "a.exe"; pid := "12"; sessionName := "Console";
            sessionNumber := "1"; memUsage := "10,240 K";
            status := Some Running |};
         {| name := "svc.exe"; pid := "4"; sessionName := "Services";
            sessionNumber := "0"; memUsage := "88 K";
            status := Some Running |} ].
Proof.
  apply (getRunningProcesses_round_trip _ CRLF EmptyString
           [ {| name := "a.exe"; pid := "12"; sessionName := "Console";
                sessionNumber := "1"; memUsage := "10,240 K";
                status := Some Running |};
             {| name := "svc.exe"; pid := "4"; sessionName := "Services";
                sessionNumber := "0"; memUsage := "88 K";
                status := Some Running |} ]).
  - right. reflexivity.
  - reflexivity.
  - reflexivity.
Defined.

(** X5: when the command is rejected, nothing is taken for a result: the
    listing and the two terminations throw, each with a message that names
    the operation (and the pid or the name it was asked to end) and carries
    the same account of the rejection, and [loadProcesses] empties the
    list and shows that message. *)
Theorem command_rejection_is_surfaced (execAsync : string -> ExecOutcome)
    (code : option string) (text : string) (showSystemProcesses : bool) :
  (forall command, execAsync command = Rejected code text) ->
  getRunningProcesses execAsync
  = Throw ("Failed to retrieve process list: Error: "
             ++ rejectionMessage code text)%string
  /\ loadProcesses execAsync showSystemProcesses
     = ([], Some ("Failed to retrieve process list: Error: "
                    ++ rejectionMessage code text)%string)
  /\ (forall pid,
        killProcess execAsync pid
        = Throw ("Failed to kill process " ++ pid ++ ": Error: "
                   ++ rejectionMessage code text)%string)
  /\ (forall name,
        killProcessByName execAsync name
        = Throw ("Failed to kill process " ++ name ++ ": Error: "
                   ++ rejectionMessage code text)%string).
Proof.
  intros Hrej.
  assert (Hrun : forall command,
            runWindowsCommand execAsync command
            = Throw (rejectionMessage code text)).
  { intros command. unfold runWindowsCommand, rejectionMessage.
    rewrite Hrej. destruct (codeIs code "ENOENT"); auto.
    destruct (codeIs code "EACCES"); auto. }
  assert (Hget : getRunningProcesses execAsync
                 = Throw ("Failed to retrieve process list: Error: "
                            ++ rejectionMessage code text)%string).
  { unfold getRunningProcesses. now rewrite Hrun. }
  repeat split.
  - exact Hget.
  - unfold loadProcesses. now rewrite Hget.
  - intros pid. unfold killProcess. now rewrite Hrun.
  - intros name. unfold killProcessByName. now rewrite Hrun.
Qed.

Lemma command_rejection_is_surfaced_witness :
  loadProcesses (fun _ => Rejected (Some "ENOENT") "Error: spawn ENOENT")
    false
  = ([], Some ("Failed to retrieve process list: Error: Command not found. "
               ++ "Please ensure Windows is properly configured.")%string).
Proof.
  exact (proj1 (proj2 (command_rejection_is_surfaced
                         (fun _ => Rejected (Some "ENOENT")
                                     "Error: spawn ENOENT")
                         (Some "ENOENT") "Error: spawn ENOENT" false
                         (fun _ => eq_refl)))).
Defined.

Lemma roundDiv_bounds (a d : Z) :
  (0 < d)%Z ->
  (2 * d * roundDiv a d <= 2 * a + d < 2 * d * roundDiv a d + 2 * d)%Z.
Proof.
  intros Hd. unfold roundDiv.
  pose proof (Z.mul_div_le (2 * a + d) (2 * d)).
  pose proof (Z.mul_succ_div_gt (2 * a + d) (2 * d)).
  lia.
Qed.

(** X6: the memory column, in kilobytes, is shown in the largest unit that
    it fills: below 1024 K the very number of kilobytes, from 1024 K on the
    number of megabytes nearest to it, from 1024 * 1024 K on the nearest
    number of gigabytes; commas and spaces in the column do not matter. A
    column that holds no number is shown as NaN gigabytes. *)
Theorem formatMemoryUsage_units (parseInt : string -> option Z)
    (memUsage : string) :
  match parseInt (removeCommasAndSpaces memUsage) with
  | None => formatMemoryUsage parseInt memUsage = "NaN GB"
  | Some n =>
      (0 <= n < 2 ^ 43)%Z ->
      ((n < 1024)%Z ->
       formatMemoryUsage parseInt memUsage = (showInt n ++ " KB")%string)
      /\ ((1024 <= n < 1024 * 1024)%Z ->
          exists m,
            formatMemoryUsage parseInt memUsage
            = (showInt m ++ " MB")%string
            /\ (1 <= m <= 1024)%Z
            /\ (n - 512 < 1024 * m <= n + 512)%Z)
      /\ ((1024 * 1024 <= n)%Z ->
          exists g,
            formatMemoryUsage parseInt memUsage
            = (showInt g ++ " GB")%string
            /\ (1 <= g)%Z
            /\ (n - 524288 < 1048576 * g <= n + 524288)%Z)
  end.
Proof.
  unfold formatMemoryUsage.
  destruct (parseInt (removeCommasAndSpaces memUsage)) as [n|]; [|reflexivity].
  intros Hn. repeat split.
  - intros Hkb.
    destruct (n * 1024 <? 1024 * 1024)%Z eqn:E; [|apply Z.ltb_ge in E; lia].
    pose proof (roundDiv_bounds (n * 1024) 1024 ltac:(lia)).
    replace (roundDiv (n * 1024) 1024) with n by lia. reflexivity.
  - intros Hmb.
    destruct (n * 1024 <? 1024 * 1024)%Z eqn:E1; [apply Z.ltb_lt in E1; lia|].
    destruct (n * 1024 <? 1024 * 1024 * 1024)%Z eqn:E2;
      [|apply Z.ltb_ge in E2; lia].
    pose proof (roundDiv_bounds (n * 1024) (1024 * 1024) ltac:(lia)).
    exists (roundDiv (n * 1024) (1024 * 1024)). split; [reflexivity|]. lia.
  - intros Hgb.
    destruct (n * 1024 <? 1024 * 1024)%Z eqn:E1; [apply Z.ltb_lt in E1; lia|].
    destruct (n * 1024 <? 1024 * 1024 * 1024)%Z eqn:E2;
      [apply Z.ltb_lt in E2; lia|].
    pose proof (roundDiv_bounds (n * 1024) (1024 * 1024 * 1024) ltac:(lia)).
    exists (roundDiv (n * 1024) (1024 * 1024 * 1024)).
    split; [reflexivity|]. lia.
Qed.

Lemma formatMemoryUsage_units_witness :
  exists m,
    formatMemoryUsage Sample.parseIntDec "10,240 K"
    = (showInt m ++ " MB")%string
    /\ (1 <= m <= 1024)%Z
    /\ (10240 - 512 < 1024 * m <= 10240 + 512)%Z.
Proof.
  refine (proj1 (proj2 (formatMemoryUsage_units Sample.parseIntDec
                          "10,240 K" _)) _); vm_compute; intuition congruence.
Defined.

Lemma prefix_refl (s : string) : String.prefix s s = true.
Proof.
  induction s as [|c r IH]; simpl; auto.
  destruct (ascii_dec c c); [exact IH|contradiction].
Qed.

Lemma includes_refl (s : string) : includes s s = true.
Proof.
  destruct s as [|c r]; [reflexivity|].
  change (includes (String c r) (String c r))
    with (String.prefix (String c r) (String c r)
          || includes r (String c r)).
  now rewrite prefix_refl.
Qed.

(** X7: the search box of the process list never hides what was typed for:
    an empty text keeps every process, and a text equal to the pid of a
    process, or to its name up to letter case, keeps that process; nothing
    is shown that is not in the list. *)
Theorem filteredProcesses_finds (processes : list WindowsProcess) :
  filteredProcesses EmptyString processes = processes
  /\ (forall p searchText,
        In p processes ->
        searchText = pid p
        \/ toLowerCase searchText = toLowerCase (name p) ->
        In p (filteredProcesses searchText processes))
  /\ (forall p searchText,
        In p (filteredProcesses searchText processes) -> In p processes).
Proof.
  repeat split.
  - unfold filteredProcesses. simpl. apply filter_all.
    apply forallb_forall. auto.
  - intros p searchText Hin Htext. unfold filteredProcesses.
    apply filter_In. split; [exact Hin|].
    destruct (truthy searchText); simpl; auto.
    destruct Htext as [Hpid | Hname].
    + subst searchText. rewrite includes_refl. apply orb_true_r.
    + rewrite Hname. now rewrite includes_refl.
  - intros p searchText Hin. unfold filteredProcesses in Hin.
    now apply filter_In in Hin.
Qed.

Lemma filteredProcesses_finds_witness :
  In {| name := "Chrome.exe"; pid := "12"; sessionName := "Console";
        sessionNumber := "1"; memUsage := "10 K"; status := Some Running |}
     (filteredProcesses "CHROME.EXE"
        [ {| name := "a.exe"; pid := "7"; sessionName := "Console";
             sessionNumber := "1"; memUsage := "1 K";
             status := Some Running |};
          {| name := "Chrome.exe"; pid := "12"; sessionName := "Console";
             sessionNumber := "1"; memUsage := "10 K";
             status := Some Running |} ]).
Proof.
  apply (proj1 (proj2 (filteredProcesses_finds _))).
  - simpl. tauto.
  - right. reflexivity.
Defined.

End ParserExtras.

(** * Further properties of the file search *)

Section SearchExtras.
Import Js FileSearch SearchSpec.

Ltac locate :=
  repeat (eapply located_below; [reflexivity | simpl; tauto | reflexivity | ]);
  match goal with
  | |- located ?h ?dir [] _ ?entry =>
      let listing := eval vm_compute in (readdir h dir) in
      match listing with
      | Some ?entries =>
          refine (located_here h dir entries entry eq_refl _); simpl; tauto
      end
  end.

Lemma existsb_false {A : Type} (f : A -> bool) (l : list A) :
  existsb f l = false -> forall x, In x l -> f x = false.
Proof.
  induction l as [|y l IH]; simpl; [tauto|].
  intros H x [->|Hin]; apply orb_false_iff in H as [Hy Hl]; auto.
Qed.

Lemma skipped_false_excluded (includeHidden : bool)
    (excludePatterns : list string) (entry : Dirent) :
  skipped includeHidden excludePatterns entry = false ->
  forall pattern,
    In pattern excludePatterns -> includes (ent_name entry) pattern = false.
Proof.
  unfold skipped. intros H pattern Hin.
  apply orb_false_iff in H as [_ H].
  exact (existsb_false _ _ H pattern Hin).
Qed.

(** X8: an exclusion pattern removes the entries whose name contains it,
    and everything below them: no record that the search returns has a name
    containing one of the patterns, and each comes from an entry reached
    through directories whose names contain none. *)
Theorem search_respects_exclusions (h : Host) (query : string)
    (searchPaths : list string) (maxResults : Z) (includeHidden : bool)
    (excludePatterns : list string) (r : FileItem) :
  In r (searchFileSystem h query searchPaths maxResults includeHidden
          excludePatterns) ->
  (forall pattern,
      In pattern excludePatterns -> includes (name r) pattern = false)
  /\ exists root ancestors entry,
       In root searchPaths
       /\ located h root ancestors (path r) entry
       /\ name r = ent_name entry
       /\ Forall
            (fun sub =>
               forall pattern,
                 In pattern excludePatterns ->
                 includes (ent_name sub) pattern = false)
            ancestors.
Proof.
  intros Hin.
  apply search_sound in Hin
    as (root & ancestors & entry & stats & Hroot & Hloc & _ & Hr & _ & Hpass
        & Hskip & _).
  assert (Hname : name r = ent_name entry) by (rewrite Hr; reflexivity).
  split.
  - rewrite Hname. now apply skipped_false_excluded with includeHidden.
  - exists root, ancestors, entry. repeat split; auto.
    apply Forall_forall. intros sub Hsub.
    eapply forallb_forall in Hpass; eauto.
    unfold passable in Hpass. apply andb_true_iff in Hpass as [Hns _].
    apply negb_true_iff in Hns.
    now apply skipped_false_excluded with includeHidden.
Qed.

Lemma search_respects_exclusions_witness :
  includes "hit1.txt" "hitdir" = false.
Proof.
  refine (proj1 (search_respects_exclusions Sample.wideHost "hit"
                   [Sample.root; Sample.root2] 100 false ["hitdir"; ".git"]
                   (fileItem Sample.wideHost
                      (Sample.under Sample.root ["hit1.txt"])
                      (Sample.fileEntry "hit1.txt")
                      {| st_size := 13; st_mtime := DateAt 0;
                         st_isDirectory := false |}) _) "hitdir" _).
  - vm_compute. tauto.
  - simpl. tauto.
Defined.

(** X9: every record that the search returns describes an entry that
    matches: its name contains the query when both are put in lower case,
    its hidden flag tells whether the name starts with a dot, and its size
    and its date are those that [stat] reports for its path. *)
Theorem search_records_describe_matches (h : Host) (query : string)
    (searchPaths : list string) (maxResults : Z) (includeHidden : bool)
    (excludePatterns : list string) (r : FileItem) :
  In r (searchFileSystem h query searchPaths maxResults includeHidden
          excludePatterns) ->
  includes (toLowerCase (name r)) (toLowerCase query) = true
  /\ isHidden r = startsWith (name r) (charAt DOT)
  /\ exists stats,
       stat h (path r) = Some stats
       /\ size r = st_size stats
       /\ modified r = st_mtime stats.
Proof.
  intros Hin.
  apply search_sound in Hin
    as (root & ancestors & entry & stats & _ & _ & Hstat & Hr & _ & _ & _
        & Hmatch).
  rewrite Hr at 1 2 3. simpl. repeat split; auto.
  exists stats. rewrite Hr at 2 3. simpl. auto.
Qed.

Lemma search_records_describe_matches_witness :
  includes (toLowerCase "hit5.TXT") (toLowerCase "HIT") = true.
Proof.
  refine (proj1 (search_records_describe_matches Sample.wideHost "HIT"
                   [Sample.root; Sample.root2] 100 false []
                   (fileItem Sample.wideHost
                      (Sample.under Sample.root ["hitdir"; "hit5.TXT"])
                      (Sample.fileEntry "hit5.TXT")
                      {| st_size := 20; st_mtime := DateAt 0;
                         st_isDirectory := false |}) _)).
  vm_compute. tauto.
Defined.

(** X10: the result cap only cuts: the search with a smaller cap returns
    the first records of the search with a larger cap, and a cap that is
    zero or negative returns nothing. *)
Theorem search_cap_truncates (h : Host) (query : string)
    (searchPaths : list string) (includeHidden : bool)
    (excludePatterns : list string) (N M : Z) :
  ((N <= M)%Z ->
   searchFileSystem h query searchPaths N includeHidden excludePatterns
   = firstn (Z.to_nat N)
       (searchFileSystem h query searchPaths M includeHidden
          excludePatterns))
  /\ ((N <= 0)%Z ->
      searchFileSystem h query searchPaths N includeHidden excludePatterns
      = []).
Proof.
  split; intros HN; rewrite !searchFileSystem_firstn.
  - rewrite firstn_firstn. f_equal. lia.
  - replace (Z.to_nat N) with 0 by lia. reflexivity.
Qed.

Lemma search_cap_truncates_witness :
  searchFileSystem Sample.wideHost "hit" [Sample.root; Sample.root2] 2 true []
  = firstn 2
      (searchFileSystem Sample.wideHost "hit" [Sample.root; Sample.root2] 100
         true []).
Proof.
  apply (proj1 (search_cap_truncates Sample.wideHost "hit"
                  [Sample.root; Sample.root2] true [] 2 100)).
  lia.
Defined.

(** X11: the roots are searched one after the other, each on its own: the
    search over two lists of roots returns the records of the first list
    followed by those of the second, cut at the cap; no root, no record. *)
Theorem search_roots_in_order (h : Host) (query : string)
    (roots1 roots2 : list string) (maxResults : Z) (includeHidden : bool)
    (excludePatterns : list string) :
  searchFileSystem h query (roots1 ++ roots2) maxResults includeHidden
    excludePatterns
  = firstn (Z.to_nat maxResults)
      (searchFileSystem h query roots1 maxResults includeHidden
         excludePatterns
       ++ searchFileSystem h query roots2 maxResults includeHidden
            excludePatterns)
  /\ searchFileSystem h query [] maxResults includeHidden excludePatterns
     = [].
Proof.
  split.
  - rewrite !searchFileSystem_firstn, flat_map_app.
    set (n := Z.to_nat maxResults).
    set (W1 := flat_map _ roots1). set (W2 := flat_map _ roots2).
    rewrite !firstn_app, firstn_firstn, Nat.min_id. f_equal.
    rewrite firstn_firstn, length_firstn. f_equal. lia.
  - rewrite searchFileSystem_firstn. simpl. apply firstn_nil.
Qed.

Lemma lowerChar_idempotent (c : ascii) : lowerChar (lowerChar c) = lowerChar c.
Proof.
  destruct c as [[] [] [] [] [] [] [] []]; reflexivity.
Qed.

Lemma toLowerCase_idempotent (s : string) :
  toLowerCase (toLowerCase s) = toLowerCase s.
Proof.
  induction s as [|c r IH]; simpl; auto.
  now rewrite lowerChar_idempotent, IH.
Qed.

(** X12: the letter case of the query does not matter: two queries that
    agree once put in lower case return the same records, and so do a query
    and its lower-case form. *)
Theorem search_ignores_query_case (h : Host) (searchPaths : list string)
    (maxResults : Z) (includeHidden : bool) (excludePatterns : list string) :
  (forall query1 query2,
      toLowerCase query1 = toLowerCase query2 ->
      searchFileSystem h query1 searchPaths maxResults includeHidden
        excludePatterns
      = searchFileSystem h query2 searchPaths maxResults includeHidden
          excludePatterns)
  /\ (forall query,
        searchFileSystem h (toLowerCase query) searchPaths maxResults
          includeHidden excludePatterns
        = searchFileSystem h query searchPaths maxResults includeHidden
            excludePatterns).
Proof.
  assert (H : forall query1 query2,
            toLowerCase query1 = toLowerCase query2 ->
            searchFileSystem h query1 searchPaths maxResults includeHidden
              excludePatterns
            = searchFileSystem h query2 searchPaths maxResults includeHidden
                excludePatterns).
  { intros query1 query2 Heq. unfold searchFileSystem. now rewrite Heq. }
  split; [exact H|].
  intros query. apply H, toLowerCase_idempotent.
Qed.

Lemma search_ignores_query_case_witness :
  searchFileSystem Sample.wideHost "HiT" [Sample.root] 100 false []
  = searchFileSystem Sample.wideHost "hIt" [Sample.root] 100 false [].
Proof.
  apply (proj1 (search_ignores_query_case Sample.wideHost [Sample.root] 100
                  false [])).
  reflexivity.
Defined.

(** X13: [searchDirectory] only appends to the results it is given: what
    was found before stays, in place, and what is added never takes the
    results beyond the cap. *)
Theorem searchDirectory_appends (h : Host) (dirPath query : string)
    (results : list FileItem) (maxResults : Z) (includeHidden : bool)
    (excludePatterns : list string) (depth : nat) :
  exists more,
    searchDirectory h dirPath query results maxResults includeHidden
      excludePatterns depth
    = results ++ more
    /\ (Z.of_nat (List.length more)
        <= Z.max 0 (maxResults - Z.of_nat (List.length results)))%Z.
Proof.
  unfold searchDirectory. rewrite searchDirectoryRec_capped. unfold capped.
  eexists. split; [reflexivity|].
  pose proof (firstn_le_length
                (Z.to_nat (maxResults - Z.of_nat (List.length results)))
                (walkRec h query includeHidden excludePatterns (6 - depth)
                   dirPath depth)).
  lia.
Qed.

(** X14: the accelerated search never throws, returns at most one record
    for each line that the tool prints, and builds each record from the
    path in the first column: the name is the base name of the path, the
    hidden flag tells whether that name starts with a dot, and the type is
    directory exactly when [stat] says that the path is one. *)
Theorem searchWithEverything_records (h : Host) (query : string)
    (maxResults : Z) :
  exists found,
    searchWithEverything h query maxResults = Ok found
    /\ Forall
         (fun r =>
            name r = basename h (path r)
            /\ isHidden r = startsWith (name r) (charAt DOT)
            /\ (type r = directory <-> isDirectory h (path r) = true))
         found
    /\ (forall stdout,
          execAsync h (everythingCommand query maxResults) = Ok stdout ->
          List.length found <= List.length (splitLines (trim stdout)))
    /\ (forall error,
          execAsync h (everythingCommand query maxResults) = Throw error ->
          found = []).
Proof.
  unfold searchWithEverything, runWindowsCommand.
  change ("chcp 65001 > nul && "
          ++ ("es.exe -n " ++ showInt maxResults ++ " -size -date-modified "
              ++ charAt DQUOTE ++ query ++ charAt DQUOTE))%string
    with (everythingCommand query maxResults).
  destruct (execAsync h (everythingCommand query maxResults))
    as [stdout|error].
  - eexists. split; [reflexivity|]. repeat split.
    + apply Forall_forall. intros r Hin.
      apply in_flat_map in Hin as (line & _ & Hin).
      unfold everythingItem in Hin.
      destruct (Nat.leb 3 (List.length (splitChar TAB line)));
        [|contradiction].
      destruct Hin as [<-|[]]. simpl. repeat split; auto.
      * destruct (isDirectory h _); [reflexivity|discriminate].
      * destruct (isDirectory h _); [reflexivity|discriminate].
    + intros stdout' Heq. injection Heq as <-.
      generalize (splitLines (trim stdout)). intros lines.
      induction lines as [|line lines IH]; simpl; auto.
      destruct (truthy (trim line)); simpl; [|lia].
      rewrite length_app. unfold everythingItem at 1.
      destruct (Nat.leb 3 (List.length (splitChar TAB line))); simpl; lia.
    + discriminate.
  - exists []. repeat split; auto. discriminate.
Qed.

(** X15: what [searchFiles] reports is consistent: the count is the number
    of records returned; a query made of white space only returns nothing,
    with a search time of zero, without looking at the host; and with the
    accelerated search disabled the records are those of the recursive
    search, the count stays within the maximum of the preferences, which
    is never zero, and the time is the difference of the two clock
    readings. *)
Theorem searchFiles_result (h : Host) (preferences : Preferences)
    (startTime endTime : Z) (query : string) :
  totalCount (searchFiles h preferences startTime endTime query)
  = List.length (files (searchFiles h preferences startTime endTime query))
  /\ (truthy (trim query) = false ->
      searchFiles h preferences startTime endTime query
      = {| files := []; totalCount := 0; searchTime := 0 |})
  /\ (truthy (trim query) = true ->
      useEverything preferences = false ->
      files (searchFiles h preferences startTime endTime query)
      = searchFileSystem h query (searchPathsOf preferences)
          (maxResultsOf h preferences) (includeHidden preferences)
          (excludePatternsOf preferences)
      /\ (Z.of_nat
            (totalCount (searchFiles h preferences startTime endTime query))
          <= Z.max 0 (maxResultsOf h preferences))%Z
      /\ searchTime (searchFiles h preferences startTime endTime query)
         = (endTime - startTime)%Z)
  /\ maxResultsOf h preferences <> 0%Z.
Proof.
  split; [|split; [|split]].
  - unfold searchFiles. destruct (negb (truthy (trim query))); reflexivity.
  - intros Hblank. unfold searchFiles. now rewrite Hblank.
  - intros Hq Hoff. unfold searchFiles. rewrite Hq, Hoff. simpl.
    split; [reflexivity|]. split; [|reflexivity].
    rewrite searchFileSystem_firstn.
    pose proof (firstn_le_length (Z.to_nat (maxResultsOf h preferences))
                  (flat_map
                     (fun root =>
                        walk h (toLowerCase query) (includeHidden preferences)
                          (excludePatternsOf preferences) root 0)
                     (searchPathsOf preferences))).
    lia.
  - unfold maxResultsOf, numberOr.
    destruct (parseInt h (maxResults preferences)) as [v|]; [|discriminate].
    destruct (v =? 0)%Z eqn:Hv; [discriminate|].
    now apply Z.eqb_neq in Hv.
Qed.

Lemma searchFiles_result_witness :
  searchFiles Sample.wideHost Sample.preferences 10 25 "   "
  = {| files := []; totalCount := 0; searchTime := 0 |}.
Proof.
  apply (proj1 (proj2 (searchFiles_result Sample.wideHost Sample.preferences
                         10 25 "   "))).
  reflexivity.
Defined.

Lemma splitChar_no_sep (sep : ascii) (s : string) :
  Forall (fun piece => ParserSpec.occurrences sep piece = 0)
    (splitChar sep s).
Proof.
  induction s as [|c r IH]; [repeat constructor|].
  cbn [splitChar]. destruct (Ascii.eqb c sep) eqn:Hc; [constructor; auto|].
  destruct (splitChar sep r) as [|l ls].
  - constructor; auto. simpl. now rewrite Hc.
  - inversion IH; subst. constructor; auto. simpl. now rewrite Hc.
Qed.

(** X16: a comma-separated preference is read as a list of clean entries:
    every search path and every exclusion pattern taken from the
    preferences is non-empty, has no white space around it and holds no
    comma; empty entries are dropped. *)
Theorem commaList_entries (text : string) :
  Forall
    (fun entry =>
       entry <> EmptyString
       /\ trim entry = entry
       /\ ParserSpec.occurrences COMMA entry = 0)
    (commaList text).
Proof.
  apply Forall_forall. intros entry Hin. unfold commaList in Hin.
  apply filter_In in Hin as [Hin Hlen].
  apply in_map_iff in Hin as (piece & <- & Hin).
  repeat split.
  - intros Hempty. rewrite Hempty in Hlen. discriminate.
  - apply trim_idempotent.
  - pose proof (splitChar_no_sep COMMA text) as Hall.
    rewrite Forall_forall in Hall. specialize (Hall piece Hin).
    pose proof (occurrences_trim COMMA piece). lia.
Qed.

Lemma iconOf_not_folder (key : string) : iconOf key <> Some Folder.
Proof.
  unfold iconOf.
  destruct (find (fun kv => String.eqb (fst kv) key) iconMap) as [kv|] eqn:E;
    [|discriminate].
  apply find_some in E as [Hin _].
  assert (Hall : Forall (fun kv : string * Icon => snd kv <> Folder) iconMap).
  { repeat constructor; discriminate. }
  rewrite Forall_forall in Hall. specialize (Hall kv Hin). congruence.
Qed.

(** X17: the folder icon is given to the directories and to nothing else,
    whatever the extension of the record is. *)
Theorem getFileIcon_folder_iff_directory (item : FileItem) :
  getFileIcon item = Folder <-> type item = directory.
Proof.
  unfold getFileIcon. destruct (type item); split; auto; try discriminate.
  intros H.
  match type of H with
  | match iconOf ?key with _ => _ end = _ =>
      pose proof (iconOf_not_folder key) as Hk;
      destruct (iconOf key) as [icon|]; [congruence|discriminate]
  end.
Qed.

Lemma searchWithEverything_records_witness :
  exists found,
    searchWithEverything Sample.everythingHost "hit" 100 = Ok found
    /\ List.length found <= 1.
Proof.
  destruct (searchWithEverything_records Sample.everythingHost "hit" 100)
    as (found & Heq & _ & Hlen & _).
  exists found. split; [exact Heq|].
  exact (Hlen Sample.everythingOutput eq_refl).
Defined.

Lemma getFileIcon_folder_iff_directory_witness :
  getFileIcon
    (fileItem Sample.wideHost (Sample.under Sample.root ["hitdir"])
       (Sample.dirEntry "hitdir")
       {| st_size := 11; st_mtime := DateAt 0; st_isDirectory := true |})
  = Folder.
Proof.
  apply (proj2 (getFileIcon_folder_iff_directory _)). reflexivity.
Defined.

Lemma tenths_bounds (num den : Z) :
  (0 < den)%Z ->
  (2 * den * tenths num den <= 20 * num + den
   < 2 * den * tenths num den + 2 * den)%Z.
Proof.
  intros Hd. unfold tenths.
  pose proof (Z.mul_div_le (20 * num + den) (2 * den)).
  pose proof (Z.mul_succ_div_gt (20 * num + den) (2 * den)).
  lia.
Qed.

Lemma scaleLoop_spec (bytes : Z) :
  let k := scaleLoop (List.length units - 1) bytes 0 in
  k <= 4
  /\ ((1024 ^ Z.of_nat k <= bytes)%Z \/ k = 0)
  /\ (k < 4 -> (bytes < 1024 ^ Z.of_nat k * 1024)%Z).
Proof.
  cbn [scaleLoop units List.length Nat.sub Nat.ltb Nat.leb andb].
  change (1024 ^ Z.of_nat 0 * 1024)%Z with 1024%Z.
  change (1024 ^ Z.of_nat 1 * 1024)%Z with 1048576%Z.
  change (1024 ^ Z.of_nat 2 * 1024)%Z with 1073741824%Z.
  change (1024 ^ Z.of_nat 3 * 1024)%Z with 1099511627776%Z.
  destruct (1024 <=? bytes)%Z eqn:E0; cbn [andb].
  2:{ apply Z.leb_gt in E0. repeat split; auto; intros; lia. }
  destruct (1048576 <=? bytes)%Z eqn:E1; cbn [andb].
  2:{ apply Z.leb_le in E0. apply Z.leb_gt in E1.
      change (1024 ^ Z.of_nat 1)%Z with 1024%Z.
      repeat split; auto; intros; lia. }
  destruct (1073741824 <=? bytes)%Z eqn:E2; cbn [andb].
  2:{ apply Z.leb_le in E1. apply Z.leb_gt in E2.
      change (1024 ^ Z.of_nat 2)%Z with 1048576%Z.
      repeat split; auto; intros; lia. }
  destruct (1099511627776 <=? bytes)%Z eqn:E3; cbn [andb].
  2:{ apply Z.leb_le in E2. apply Z.leb_gt in E3.
      change (1024 ^ Z.of_nat 3)%Z with 1073741824%Z.
      repeat split; auto; intros; lia. }
  apply Z.leb_le in E3.
  change (1024 ^ Z.of_nat 4)%Z with 1099511627776%Z.
  repeat split; auto; intros; lia.
Qed.

(** X18: a size is shown in the largest unit that it fills, up to the
    terabyte: below 1024 bytes the very number of bytes, and from 1024
    bytes on the number of tenths of the unit that is nearest to the size,
    which is at least one unit and, below the terabyte, at most 1024.0
    units. *)
Theorem formatFileSize_units (bytes : Z) :
  (0 <= bytes < 2 ^ 53)%Z ->
  ((bytes < 1024)%Z ->
   formatFileSize bytes = (showInt bytes ++ " B")%string)
  /\ ((1024 <= bytes)%Z ->
      exists k n unit,
        formatFileSize bytes = (showTenths n ++ " " ++ unit)%string
        /\ 1 <= k <= 4
        /\ nth_error units k = Some unit
        /\ (1024 ^ Z.of_nat k <= bytes)%Z
        /\ (k < 4 -> (bytes < 1024 ^ Z.of_nat k * 1024)%Z)
        /\ (20 * bytes - 1024 ^ Z.of_nat k
            < 2 * 1024 ^ Z.of_nat k * n
            <= 20 * bytes + 1024 ^ Z.of_nat k)%Z
        /\ (10 <= n)%Z
        /\ (k < 4 -> (n <= 10240)%Z)).
Proof.
  intros Hrange.
  pose proof (scaleLoop_spec bytes) as Hk. cbv zeta in Hk.
  unfold formatFileSize.
  set (k := scaleLoop (List.length units - 1) bytes 0) in *.
  destruct Hk as (Hk4 & Hlow & Hhigh).
  split.
  - intros Hsmall.
    assert (k = 0).
    { destruct Hlow as [Hlow|]; auto.
      destruct k as [|k']; auto.
      assert (1024 ^ 1 <= 1024 ^ Z.of_nat (S k'))%Z
        by (apply Z.pow_le_mono_r; lia).
      lia. }
    subst k. rewrite H. reflexivity.
  - intros Hbig.
    assert (Hpos : 1 <= k).
    { destruct k as [|k']; [|lia].
      specialize (Hhigh ltac:(lia)). simpl in Hhigh. lia. }
    destruct Hlow as [Hlow|]; [|lia].
    assert (Hd : (0 < 1024 ^ Z.of_nat k)%Z) by (apply Z.pow_pos_nonneg; lia).
    pose proof (tenths_bounds bytes (1024 ^ Z.of_nat k) Hd) as Hn.
    destruct (nth_error units k) as [unit|] eqn:Hunit.
    2:{ apply nth_error_None in Hunit. simpl in Hunit. lia. }
    exists k, (tenths bytes (1024 ^ Z.of_nat k)), unit.
    replace (Nat.eqb k 0) with false by (symmetry; apply Nat.eqb_neq; lia).
    rewrite (nth_error_nth _ _ EmptyString Hunit).
    repeat split; auto; try lia; try nia.
Qed.

Lemma formatFileSize_units_witness :
  formatFileSize 1000 = "1000 B"
  /\ formatFileSize 1048575 = "1024.0 KB"
  /\ formatFileSize 1536 = "1.5 KB".
Proof.
  split; [|split; vm_compute; reflexivity].
  apply (proj1 (formatFileSize_units 1000 ltac:(vm_compute; intuition congruence))).
  reflexivity.
Defined.

Lemma setHas_In (s : StringSet) (x : string) :
  setHas s x = true <-> In x s.
Proof.
  unfold setHas. rewrite existsb_exists. split.
  - intros (y & Hin & Heq). apply String.eqb_eq in Heq. now subst.
  - intros Hin. exists x. split; auto. apply String.eqb_refl.
Qed.

Lemma In_toggle (prev : StringSet) (filePath x : string) :
  In x (toggleFileSelection prev filePath)
  <-> (x = filePath /\ ~ In filePath prev)
      \/ (x <> filePath /\ In x prev).
Proof.
  unfold toggleFileSelection, setAdd, setDelete.
  destruct (setHas prev filePath) eqn:Hhas.
  - apply setHas_In in Hhas. rewrite filter_In.
    rewrite negb_true_iff, String.eqb_neq. split.
    + intros [Hin Hne]. auto.
    + intros [[-> Hnot]|[Hne Hin]]; [contradiction|auto].
  - assert (Hnot : ~ In filePath prev).
    { intros Hin. apply setHas_In in Hin. congruence. }
    rewrite in_app_iff. simpl. split.
    + intros [Hin|[<-|[]]]; auto.
      right. split; auto. intros ->. contradiction.
    + intros [[-> _]|[_ Hin]]; auto.
Qed.

(** X19: toggling a path in the selection flips that path and no other:
    the path is selected afterwards exactly when it was not before, every
    other path keeps its state, a selection without repetition stays
    without repetition, and toggling the same path twice gives back a
    selection with the same members. *)
Theorem toggleFileSelection_flips (prev : StringSet) (filePath : string) :
  NoDup prev ->
  NoDup (toggleFileSelection prev filePath)
  /\ (In filePath (toggleFileSelection prev filePath)
      <-> ~ In filePath prev)
  /\ (forall other,
        other <> filePath ->
        (In other (toggleFileSelection prev filePath) <-> In other prev))
  /\ (forall x,
        In x (toggleFileSelection (toggleFileSelection prev filePath)
                filePath)
        <-> In x prev).
Proof.
  intros Hnodup. split; [|split; [|split]].
  - unfold toggleFileSelection, setAdd, setDelete.
    destruct (setHas prev filePath) eqn:Hhas.
    + now apply NoDup_filter.
    + apply NoDup_app; auto.
      * repeat constructor. simpl. tauto.
      * intros x Hin [<-|[]]. apply setHas_In in Hin. congruence.
  - rewrite In_toggle. tauto.
  - intros other Hne. rewrite In_toggle. tauto.
  - intros x. rewrite !In_toggle.
    destruct (string_dec x filePath) as [->|Hne]; [|tauto].
    destruct (in_dec string_dec filePath prev); tauto.
Qed.

Lemma toggleFileSelection_flips_witness :
  In "b" (toggleFileSelection ["a"; "c"] "b") <-> ~ In "b" ["a"; "c"].
Proof.
  refine (proj1 (proj2 (toggleFileSelection_flips ["a"; "c"] "b" _))).
  repeat constructor; simpl; intuition discriminate.
Defined.

Lemma trashEach_counts (World : Type) (trash : World -> string -> World * bool)
    (filesToDelete : list string) :
  forall w successCount errorCount,
    let '(w', ok, failed) :=
      trashEach World trash w filesToDelete successCount errorCount in
    ok + failed = successCount + errorCount + List.length filesToDelete
    /\ w' = fold_left (fun state filePath => fst (trash state filePath))
              filesToDelete w
    /\ (failed = errorCount <->
        ok = successCount + List.length filesToDelete).
Proof.
  induction filesToDelete as [|filePath rest IH];
    intros w successCount errorCount; simpl.
  - repeat split; lia.
  - destruct (trash w filePath) as [w1 resolved] eqn:Htrash. simpl.
    destruct resolved.
    + specialize (IH w1 (successCount + 1) errorCount).
      destruct (trashEach World trash w1 rest (successCount + 1) errorCount)
        as [[w' ok] failed].
      destruct IH as (Hsum & Hw & Hiff). repeat split; try lia. exact Hw.
    + specialize (IH w1 successCount (errorCount + 1)).
      destruct (trashEach World trash w1 rest successCount (errorCount + 1))
        as [[w' ok] failed].
      destruct IH as (Hsum & Hw & Hiff). repeat split; try lia. exact Hw.
Qed.

(** X20: a bulk deletion accounts for every selected file: with an empty
    selection or without confirmation nothing is touched and nothing is
    shown; otherwise [trash] is called once on each selected path, in the
    order of the selection, a failure not stopping the others; the two
    counts add up to the size of the selection; the toast reports a success
    exactly when no deletion failed; and the selection is emptied. *)
Theorem handleBulkDelete_accounts (World : Type)
    (trash : World -> string -> World * bool)
    (selectedFiles : StringSet) (confirmed : bool) (w : World) :
  (selectedFiles = [] \/ confirmed = false ->
   handleBulkDelete World trash selectedFiles confirmed w
   = (w, selectedFiles, None))
  /\ (selectedFiles <> [] ->
      confirmed = true ->
      exists ok failed,
        handleBulkDelete World trash selectedFiles confirmed w
        = (fold_left (fun state filePath => fst (trash state filePath))
             selectedFiles w,
           [],
           Some {| toastStyle := if Nat.eqb failed 0 then Success else Failure;
                   toastTitle :=
                     ("Deleted " ++ showInt (Z.of_nat ok) ++ " files")%string;
                   toastMessage :=
                     if Nat.ltb 0 failed
                     then Some (showInt (Z.of_nat failed)
                                  ++ " files failed to delete")%string
                     else None |})
        /\ ok + failed = List.length selectedFiles
        /\ (failed = 0 <-> ok = List.length selectedFiles)).
Proof.
  split.
  - intros [-> | ->]; unfold handleBulkDelete; simpl; auto.
    destruct (Nat.eqb (List.length selectedFiles) 0); reflexivity.
  - intros Hne ->. unfold handleBulkDelete.
    destruct selectedFiles as [|filePath rest] eqn:E; [contradiction|].
    rewrite <- E. replace (Nat.eqb (List.length selectedFiles) 0) with false
      by (subst; reflexivity).
    simpl negb. cbv iota.
    pose proof (trashEach_counts World trash selectedFiles w 0 0) as H.
    destruct (trashEach World trash w selectedFiles 0 0) as [[w' ok] failed].
    destruct H as (Hsum & Hw & Hiff).
    exists ok, failed. subst w'. repeat split; auto; lia.
Qed.

Lemma handleBulkDelete_accounts_witness :
  exists ok failed,
    handleBulkDelete (list string)
      (fun deleted filePath =>
         if String.eqb filePath "locked" then (deleted, false)
         else (deleted ++ [filePath], true))
      ["a"; "locked"; "b"] true []
    = (["a"; "b"], [],
       Some {| toastStyle := if Nat.eqb failed 0 then Success else Failure;
               toastTitle :=
                 ("Deleted " ++ showInt (Z.of_nat ok) ++ " files")%string;
               toastMessage :=
                 if Nat.ltb 0 failed
                 then Some (showInt (Z.of_nat failed)
                              ++ " files failed to delete")%string
                 else None |})
    /\ ok + failed = 3
    /\ (failed = 0 <-> ok = 3).
Proof.
  refine (proj2 (handleBulkDelete_accounts (list string)
                   (fun deleted filePath =>
                      if String.eqb filePath "locked" then (deleted, false)
                      else (deleted ++ [filePath], true))
                   ["a"; "locked"; "b"] true []) _ eq_refl).
  discriminate.
Defined.

End SearchExtras.
